(** * MaRS: the pressure-sensor state, its CSV rows, the buffer order
      and the initialization of the filter

    Shallow embedding of
    [source/mars/include/mars/sensors/pressure/pressure_sensor_state_type.h]
    and of the driver loop of
    [source/tests/mars-e2e-test/mars_e2e_imu_pose_update.cpp].

    A C++ [double] is an IEEE-754 binary64 value and is kept here as its
    64-bit pattern; [Eigen::Vector3d] is three of them.  The text that
    [std::stringstream] produces for a [double] is the text of
    [printf("%.*g")] at the stream's precision, which is modelled digit by
    digit on exact integer arithmetic.

    The buffer, the core logic and a reader of rows are not among the
    sources; they are modelled from the specification, and each such
    definition says so.

    The definitions come first, module by module; the facts follow. *)

From Stdlib Require Import ZArith List String Ascii Bool Lia Sorted.
Import ListNotations.

Local Open Scope string_scope.
Local Open Scope Z_scope.

(* ===================================================================== *)
(** ** IEEE-754 binary64 values as bit patterns                          *)
(* ===================================================================== *)

Module Binary64.

(** A [double] is its 64-bit pattern: bit 63 is the sign, bits 62..52
    the biased exponent, bits 51..0 the fraction.  The accessors mask
    their argument, so they only ever look at the low 64 bits. *)
Definition double := Z.

(** The patterns of 64 bits. *)
Definition wf (b : double) : Prop := 0 <= b < 2 ^ 64.

Definition sign_bit (b : double) : bool := Z.testbit b 63.
Definition exp_field (b : double) : Z := Z.land (Z.shiftr b 52) (Z.ones 11).
Definition frac_field (b : double) : Z := Z.land b (Z.ones 52).

(** Exponent field all ones: an infinity when the fraction is zero, a
    NaN otherwise. *)
Definition is_nan (b : double) : bool :=
  (exp_field b =? 2047) && negb (frac_field b =? 0).

(** The magnitude of a finite double is [mantissa * 2 ^ exponent]. *)
Definition mantissa (b : double) : Z :=
  if exp_field b =? 0 then frac_field b else 2 ^ 52 + frac_field b.
Definition exponent (b : double) : Z :=
  if exp_field b =? 0 then -1074 else exp_field b - 1075.

(** Every finite magnitude is a whole multiple of [2 ^ -1074];
    [scaled b] is that multiple, so that [|b| = scaled b / 2 ^ 1074]. *)
Definition scaled (b : double) : Z := mantissa b * 2 ^ (exponent b + 1074).
Definition unit_denominator : Z := 2 ^ 1074.

(** One unit in the last place, in the same scale. *)
Definition ulp_scaled (b : double) : Z := 2 ^ (exponent b + 1074).

(** The pattern without its sign bit. *)
Definition magnitude_bits (b : double) : Z := Z.land b (Z.ones 63).

(** The literals the sources use. *)
Definition zero : double := 0.                       (* 0.0 *)
Definition one : double := 0x3FF0000000000000.       (* 1.0 *)
Definition five : double := 0x4014000000000000.      (* 5.0 *)
Definition infinity_bits : Z := 0x7FF0000000000000.
Definition quiet_nan : double := 0x7FF8000000000000.

End Binary64.

(* ===================================================================== *)
(** ** Text of a double: [os << x] at precision [p]                      *)
(* ===================================================================== *)

(** With neither [std::fixed] nor [std::scientific] set, [num_put] formats
    a [double] as [printf] does with ["%.pg"] (classic locale, glibc
    spelling of infinities and NaNs): the value is rounded, ties to even,
    to [p] significant decimal digits; it is laid out in scientific
    notation when the decimal exponent is below [-4] or at least [p], in
    positional notation otherwise; trailing zeros of the fractional part,
    and a decimal point left without a fractional part, are removed. *)
Module Printf.
Import Binary64.

Definition digit_char (d : Z) : ascii := ascii_of_N (Z.to_N (48 + d)).

(** The [n] low decimal digits of [D], most significant first. *)
Fixpoint digits (n : nat) (D : Z) : string :=
  match n with
  | O => ""
  | S n' => String (digit_char ((D / 10 ^ Z.of_nat n') mod 10)) (digits n' D)
  end.

Fixpoint zeros (n : nat) : string :=
  match n with
  | O => ""
  | S n' => String "0" (zeros n')
  end.

(** Removal of the trailing zeros of a digit string. *)
Fixpoint strip_trailing_zeros (s : string) : string :=
  match s with
  | "" => ""
  | String c r =>
      let r' := strip_trailing_zeros r in
      if Ascii.eqb c "0" && String.eqb r' "" then "" else String c r'
  end.

(** [num / den] multiplied by [10 ^ k], as a fraction again. *)
Definition scale10 (k num den : Z) : Z * Z :=
  if 0 <=? k then (num * 10 ^ k, den) else (num, den * 10 ^ (- k)).

(** [10 ^ X <= num / den] *)
Definition pow10_le (X num den : Z) : bool :=
  let '(n, d) := scale10 (- X) num den in d <=? n.

(** The decimal exponent of [num / den]: the largest [X], counting down
    from the start value, with [10 ^ X <= num / den].  A finite non-zero
    double lies between [10 ^ -324] and [10 ^ 309], which is where
    [decimal_of] starts and how far its fuel reaches. *)
Fixpoint decimal_exponent (fuel : nat) (X num den : Z) : Z :=
  match fuel with
  | O => X
  | S fuel' =>
      if pow10_le X num den then X
      else decimal_exponent fuel' (X - 1) num den
  end.

(** Nearest integer to [n / d], ties to the even one. *)
Definition round_half_even (n d : Z) : Z :=
  let q := n / d in
  let r := n mod d in
  match 2 * r ?= d with
  | Lt => q
  | Gt => q + 1
  | Eq => if Z.even q then q else q + 1
  end.

(** The [P]-digit decimal significand [D] and decimal exponent [X] of a
    finite non-zero double: [D * 10 ^ (X - (P - 1))] is the value
    rounded to [P] significant digits. *)
Definition decimal_of (P : Z) (b : double) : Z * Z :=
  let N := scaled b in
  let X0 := decimal_exponent 633 308 N unit_denominator in
  let '(n, d) := scale10 (P - 1 - X0) N unit_denominator in
  let D0 := round_half_even n d in
  if D0 =? 10 ^ P then (10 ^ (P - 1), X0 + 1) else (D0, X0).

(** Positional layout of the [P] digits of [D] with [X + 1] of them
    before the point ([0 <= X < P]). *)
Definition positional (P D X : Z) : string :=
  let nfrac := Z.to_nat (P - 1 - X) in
  let int_part := digits (Z.to_nat (X + 1)) (D / 10 ^ (P - 1 - X)) in
  let frac_part := strip_trailing_zeros (digits nfrac D) in
  if String.eqb frac_part "" then int_part else int_part ++ "." ++ frac_part.

(** The exponent suffix of the scientific layout has a sign and at
    least two digits. *)
Definition exponent_suffix (X : Z) : string :=
  let a := Z.abs X in
  let n := if a <? 100 then 2%nat else if a <? 1000 then 3%nat else 4%nat in
  "e" ++ (if X <? 0 then "-" else "+") ++ digits n a.

Definition layout (P D X : Z) : string :=
  if (X <? -4) || (P <=? X) then
    positional P D 0 ++ exponent_suffix X
  else if 0 <=? X then
    positional P D X
  else
    "0." ++ zeros (Z.to_nat (- X - 1))
         ++ strip_trailing_zeros (digits (Z.to_nat P) D).

(** [os << x] with [os.precision(p)] in the default float notation; a
    precision of zero counts as one. *)
Definition format_g (p : Z) (b : double) : string :=
  let P := Z.max 1 p in
  let sgn := if sign_bit b then "-" else "" in
  if exp_field b =? 2047 then
    sgn ++ (if frac_field b =? 0 then "inf" else "nan")
  else if scaled b =? 0 then
    sgn ++ "0"
  else
    let '(D, X) := decimal_of P b in sgn ++ layout P D X.

End Printf.

(* ===================================================================== *)
(** ** [std::stringstream]                                               *)
(* ===================================================================== *)

(** The part of a string stream the sources use: the characters written
    so far and the floating-point precision, which a fresh stream has at
    6 and [precision] sets. *)
Module StringStream.
Import Binary64.

Record stringstream := { contents : string; precision_ : Z }.

Definition fresh : stringstream := {| contents := ""; precision_ := 6 |}.

Definition precision (p : Z) (os : stringstream) : stringstream :=
  {| contents := contents os; precision_ := p |}.

Definition put_string (s : string) (os : stringstream) : stringstream :=
  {| contents := contents os ++ s; precision_ := precision_ os |}.

Definition put_double (x : double) (os : stringstream) : stringstream :=
  {| contents := contents os ++ Printf.format_g (precision_ os) x;
     precision_ := precision_ os |}.

Definition str (os : stringstream) : string := contents os.

End StringStream.

(* ===================================================================== *)
(** ** [mars::PressureSensorStateType]                                   *)
(* ===================================================================== *)

Module Pressure.
Import Binary64 StringStream.

(** [Eigen::Vector3d]: three doubles, read with [v(0)], [v(1)], [v(2)]. *)
Record Vector3d := { x_ : double; y_ : double; z_ : double }.

(** [v(i)]; the sources read the coefficients 0, 1 and 2 only. *)
Definition coeff (v : Vector3d) (i : nat) : double :=
  match i with
  | O => x_ v
  | S O => y_ v
  | _ => z_ v
  end.

Definition coeffs (v : Vector3d) : list double := [x_ v; y_ v; z_ v].

Definition setZero : Vector3d := {| x_ := zero; y_ := zero; z_ := zero |}.

(** Modelled from the spec: [mars/type_definitions/base_states.h] is not
    among the sources.  Each sensor state "declares a covariance
    dimension": the base class keeps the size handed to its
    constructor. *)
Record BaseStates := { cov_size_ : Z }.

Definition BaseStates_new (cov_size : Z) : BaseStates :=
  {| cov_size_ := cov_size |}.

(** The class has one data member of its own, [p_ip_]. *)
Record PressureSensorStateType :=
  { base : BaseStates; p_ip_ : Vector3d }.

(** [PressureSensorStateType() : BaseStates(3) { p_ip_.setZero(); }] *)
Definition PressureSensorStateType_new : PressureSensorStateType :=
  {| base := BaseStates_new 3; p_ip_ := setZero |}.

(** A member function runs on its receiver and the local stream [os];
    each statement of a body is a step on that pair. *)
Record frame := { this : PressureSensorStateType; os : stringstream }.

Definition stmt := frame -> frame.

Definition os_precision (p : Z) : stmt :=
  fun f => {| this := this f; os := precision p (os f) |}.

Definition os_put_string (s : string) : stmt :=
  fun f => {| this := this f; os := put_string s (os f) |}.

Definition os_put_double (e : PressureSensorStateType -> double) : stmt :=
  fun f => {| this := this f; os := put_double (e (this f)) (os f) |}.

Definition run (body : list stmt) (f : frame) : frame :=
  fold_left (fun f s => s f) body f.

(** A statement that leaves the receiver as it is. *)
Definition keeps_receiver (st : stmt) : Prop := forall f, this (st f) = this f.

(** [static std::string get_csv_state_header_string()] *)
Definition get_csv_state_header_string : string :=
  str (put_string "p_ip_x, p_ip_y, p_ip_z" (put_string "t, " fresh)).

(** The statements of [to_csv_string(const double& timestamp) const]. *)
Definition to_csv_string_body (timestamp : double) : list stmt :=
  [ os_precision 17;
    os_put_double (fun _ => timestamp);
    os_put_string ", "; os_put_double (fun s => coeff (p_ip_ s) 0);
    os_put_string ", "; os_put_double (fun s => coeff (p_ip_ s) 1);
    os_put_string ", "; os_put_double (fun s => coeff (p_ip_ s) 2) ].

(** A call: the returned string and the receiver after the call. *)
Definition call_to_csv_string (self : PressureSensorStateType)
    (timestamp : double) : string * PressureSensorStateType :=
  let f := run (to_csv_string_body timestamp) {| this := self; os := fresh |} in
  (str (os f), this f).

Definition to_csv_string (self : PressureSensorStateType)
    (timestamp : double) : string :=
  fst (call_to_csv_string self timestamp).

(** The fields of a CSV row: the pieces between the [", "] separators. *)
Fixpoint split_fields_aux (cur : string) (s : string) : list string :=
  match s with
  | "" => [cur]
  | String c r =>
      match r with
      | String c' r' =>
          if Ascii.eqb c "," && Ascii.eqb c' " "
          then cur :: split_fields_aux "" r'
          else split_fields_aux (cur ++ String c "") r
      | "" => [cur ++ String c ""]
      end
  end.

Definition split_fields (s : string) : list string := split_fields_aux "" s.

End Pressure.

(* ===================================================================== *)
(** ** Reading a row back                                                *)
(* ===================================================================== *)

(** The round-trip law [parse(to_row(state)) = state] of the
    specification names a reader of state rows, and none is among the
    sources.  The reader of this module takes a row apart at its
    separators and reads each field as [strtod] reads a decimal literal:
    to the nearest double, ties to the even significand. *)
Module Strtod.
Import Binary64 Pressure.

Definition digit_value (c : ascii) : option Z :=
  let n := Z.of_N (N_of_ascii c) in
  if (48 <=? n) && (n <=? 57) then Some (n - 48) else None.

(** Reads a run of digits onto the accumulator; also counts them. *)
Fixpoint read_digits (acc cnt : Z) (s : string) : Z * Z * string :=
  match s with
  | "" => (acc, cnt, "")
  | String c r =>
      match digit_value c with
      | Some d => read_digits (10 * acc + d) (cnt + 1) r
      | None => (acc, cnt, s)
      end
  end.

(** No digit at the head of [s]: a run of digits ends here. *)
Definition no_digit_ahead (s : string) : bool :=
  match s with
  | "" => true
  | String c _ =>
      match digit_value c with
      | Some _ => false
      | None => true
      end
  end.

(** [eat c s] is what follows [c] when [s] starts with it. *)
Definition eat (c : ascii) (s : string) : option string :=
  match s with
  | "" => None
  | String a r => if Ascii.eqb a c then Some r else None
  end.

(** [digits [. digits]]: the digits read as one integer, how many
    there were, how many of them behind the point, and what follows. *)
Definition read_significand (s : string) : Z * Z * Z * string :=
  let '(i, ni, r1) := read_digits 0 0 s in
  let '(m, nf, r2) :=
    match eat "." r1 with
    | Some r => read_digits i 0 r
    | None => (i, 0, r1)
    end in
  (m, ni + nf, nf, r2).

(** [[e [+|-] digits]] up to the end of the string. *)
Definition read_exponent (s : string) : option Z :=
  if String.eqb s "" then Some 0
  else
    match eat "e" s with
    | Some r3 =>
        let '(neg, r4) :=
          match eat "-" r3 with
          | Some r => (true, r)
          | None =>
              match eat "+" r3 with
              | Some r => (false, r)
              | None => (false, r3)
              end
          end in
        let '(ex, ne, r5) := read_digits 0 0 r4 in
        if (ne =? 0) || negb (String.eqb r5 "") then None
        else Some (if neg then - ex else ex)
    | None => None
    end.

(** A decimal literal, the whole string; the result [(M, k)] stands
    for [M * 10 ^ k]. *)
Definition parse_decimal (s : string) : option (Z * Z) :=
  let '(m, n, nf, r) := read_significand s in
  if n =? 0 then None
  else
    match read_exponent r with
    | Some ex => Some (m, ex - nf)
    | None => None
    end.

(** [|c| <= num / den] for a sign-free bit pattern [c]. *)
Definition le_value (c num den : Z) : bool :=
  scaled c * den <=? num * unit_denominator.

(** The largest sign-free pattern whose value is at most [num / den],
    found bit by bit from the top: the order of the patterns is the
    order of the values. *)
Fixpoint floor_bits (n : nat) (acc num den : Z) : Z :=
  match n with
  | O => acc
  | S n' =>
      let c := acc + 2 ^ Z.of_nat n' in
      if le_value c num den then floor_bits n' c num den
      else floor_bits n' acc num den
  end.

(** Round to nearest, ties to even; what lies at or beyond the
    pattern of infinity is infinity. *)
Definition nearest_magnitude (num den : Z) : Z :=
  let lo := floor_bits 63 0 num den in
  let hi := lo + 1 in
  let r :=
    match 2 * num * unit_denominator ?= (scaled lo + scaled hi) * den with
    | Lt => lo
    | Gt => hi
    | Eq => if Z.even lo then lo else hi
    end in
  Z.min r infinity_bits.

(** An unsigned numeral: a decimal literal, [inf] or [nan]. *)
Definition parse_magnitude (s : string) : option Z :=
  match parse_decimal s with
  | Some (M, k) =>
      let '(num, den) := Printf.scale10 k M 1 in
      Some (nearest_magnitude num den)
  | None =>
      if String.eqb s "inf" then Some infinity_bits
      else if String.eqb s "nan" then Some quiet_nan
      else None
  end.

(** Modelled from the spec: the field reader of [parse], absent from
    the sources; an optional minus sign and an unsigned numeral, read to
    the nearest double. *)
Definition parse_double (s : string) : option double :=
  match eat "-" s with
  | Some r => option_map (fun m => 2 ^ 63 + m) (parse_magnitude r)
  | None => parse_magnitude s
  end.

(** Modelled from the spec: [parse] for a pressure-sensor row, absent
    from the sources.  A row is the timestamp and the three coefficients
    of [p_ip_]; the state is default-constructed and its [p_ip_]
    assigned. *)
Definition parse_row (row : string) : option (double * PressureSensorStateType) :=
  match map parse_double (split_fields row) with
  | [Some t; Some x; Some y; Some z] =>
      Some (t, {| base := base PressureSensorStateType_new;
                  p_ip_ := {| x_ := x; y_ := y; z_ := z |} |})
  | _ => None
  end.

End Strtod.

(** ** Counting the significant digits of a field *)
Module Digits.

Definition is_digit (c : ascii) : bool :=
  let n := N_of_ascii c in (48 <=? n)%N && (n <=? 57)%N.

Definition is_nonzero_digit (c : ascii) : bool :=
  let n := N_of_ascii c in (49 <=? n)%N && (n <=? 57)%N.

(** The part of a numeral before its exponent mark. *)
Fixpoint significand_part (s : string) : string :=
  match s with
  | "" => ""
  | String c r => if Ascii.eqb c "e" then "" else String c (significand_part r)
  end.

(** Drops the sign, the point and the zeros that precede the first
    non-zero digit. *)
Fixpoint skip_leading (s : string) : string :=
  match s with
  | "" => ""
  | String c r => if is_nonzero_digit c then s else skip_leading r
  end.

Fixpoint count_digits (s : string) : nat :=
  match s with
  | "" => O
  | String c r => ((if is_digit c then 1 else 0) + count_digits r)%nat
  end.

Definition significant_digits (s : string) : nat :=
  count_digits (skip_leading (significand_part s)).

Fixpoint all_chars (p : ascii -> bool) (s : string) : bool :=
  match s with
  | "" => true
  | String c r => p c && all_chars p r
  end.

Fixpoint mem_char (c : ascii) (s : string) : bool :=
  match s with
  | "" => false
  | String a r => Ascii.eqb a c || mem_char c r
  end.

Definition not_comma (c : ascii) : bool := negb (Ascii.eqb c ",").

Definition not_e (c : ascii) : bool := negb (Ascii.eqb c "e").

(** The characters a formatted double is made of. *)
Definition numeral_char (c : ascii) : bool :=
  is_digit c || mem_char c "-+.einfa".

End Digits.

(* ===================================================================== *)
(** ** The measurement buffer                                            *)
(* ===================================================================== *)

(** The buffer of [mars/buffer.h] and the entry type of
    [mars/type_definitions/buffer_entry_type.h] are not among the
    sources; this module follows sections 3 and 4.2 of the
    specification. *)
Module Buffer.
Import Binary64 Pressure.

(** Modelled from the spec: the time type, absent from the sources; a
    "monotone scalar in seconds with nanosecond precision" under a total
    order, kept as a count of nanoseconds. *)
Definition Timestamp := Z.
Definition SensorHandle := nat.

Record Quaterniond := { qw : double; qx : double; qy : double; qz : double }.

Definition Identity : Quaterniond :=
  {| qw := one; qx := zero; qy := zero; qz := zero |}.

(** The core nominal state: 16 scalars. *)
Record CoreStateType :=
  { p_wi_ : Vector3d; v_wi_ : Vector3d; q_wi_ : Quaterniond;
    b_w_ : Vector3d; b_a_ : Vector3d }.

Definition Covariance := list (list double).

Inductive EntryKind :=
  MeasurementEntry | SensorStateEntry | CoreStateEntry | InitEntry.

Inductive Payload :=
| RawMeasurement (z : list double)
| SensorSnapshot (s : list double) (P : Covariance)
| CoreSnapshot (x : CoreStateType) (P : Covariance)
| InitMarker.

(** Modelled from the spec: the buffer entry, absent from the sources;
    timestamp, sensor handle, kind, payload and the two flags.  Entries
    "are totally ordered by (timestamp, insertion-sequence)"; the buffer
    gives the sequence number when the entry goes in. *)
Record BufferEntryType :=
  { timestamp_ : Timestamp;
    sensor_ : SensorHandle;
    kind_ : EntryKind;
    data_ : Payload;
    is_checkpoint : bool;
    is_out_of_order_origin : bool;
    sequence_ : nat }.

Definition with_sequence (n : nat) (e : BufferEntryType) : BufferEntryType :=
  {| timestamp_ := timestamp_ e; sensor_ := sensor_ e; kind_ := kind_ e;
     data_ := data_ e; is_checkpoint := is_checkpoint e;
     is_out_of_order_origin := is_out_of_order_origin e; sequence_ := n |}.

Record BufferType :=
  { entries : list BufferEntryType; next_sequence : nat; N_max : nat }.

Definition empty (capacity : nat) : BufferType :=
  {| entries := []; next_sequence := O; N_max := capacity |}.

(** Insertion in time order, behind the entries that are not later;
    returns the list and the index of the new entry. *)
Fixpoint insert_sorted (e : BufferEntryType) (es : list BufferEntryType)
  : list BufferEntryType * nat :=
  match es with
  | [] => ([e], O)
  | h :: t =>
      if timestamp_ e <? timestamp_ h then (e :: es, O)
      else let '(r, i) := insert_sorted e t in (h :: r, S i)
  end.

(** Modelled from the spec: [insert(entry) -> index] of the absent
    buffer, "inserts in time order; returns insertion index", with the
    out-of-order flag "if there exists an entry with a later
    timestamp". *)
Definition insert (e : BufferEntryType) (b : BufferType)
  : BufferType * nat * bool :=
  let e' := with_sequence (next_sequence b) e in
  let '(es, i) := insert_sorted e' (entries b) in
  ({| entries := es; next_sequence := S (next_sequence b); N_max := N_max b |},
   i,
   existsb (fun h => timestamp_ e <? timestamp_ h) (entries b)).

(** Modelled from the spec: [remove_after(index)] of the absent buffer;
    the entries behind position [index] go. *)
Definition remove_after (index : nat) (b : BufferType) : BufferType :=
  {| entries := firstn (S index) (entries b);
     next_sequence := next_sequence b; N_max := N_max b |}.

(** Modelled from the spec: [clear] of the absent buffer; "every entry
    is released". *)
Definition clear (b : BufferType) : BufferType :=
  {| entries := []; next_sequence := next_sequence b; N_max := N_max b |}.

Definition is_core_state (e : BufferEntryType) : bool :=
  match kind_ e with CoreStateEntry => true | _ => false end.

(** Modelled from the spec: [get_latest_state] of the absent buffer;
    the newest entry of kind Core-State, if any. *)
Definition get_latest_state (b : BufferType) : option BufferEntryType :=
  find is_core_state (rev (entries b)).

Section Capacity.
(** The spec protects the oldest entry when "it is the sole
    predecessor of an unmaterialized state" and says no more about
    that test, which is left open here. *)
Variable protected : list BufferEntryType -> bool.

(** Modelled from the spec: [prune_oldest()] of the absent buffer;
    "when full, the oldest entry is dropped", unless it is protected. *)
Definition prune_oldest (b : BufferType) : BufferType :=
  if (N_max b <=? List.length (entries b))%nat && negb (protected (entries b))
  then {| entries := tl (entries b);
          next_sequence := next_sequence b; N_max := N_max b |}
  else b.

Inductive operation :=
| Insert (e : BufferEntryType)
| PruneOldest
| RemoveAfter (index : nat)
| Clear.

Definition apply (b : BufferType) (o : operation) : BufferType :=
  match o with
  | Insert e => fst (fst (insert e b))
  | PruneOldest => prune_oldest b
  | RemoveAfter i => remove_after i b
  | Clear => clear b
  end.
End Capacity.

(** The order of the entries: earlier timestamp first, and among equal
    timestamps the earlier arrival first. *)
Definition entry_lt (a b : BufferEntryType) : Prop :=
  timestamp_ a < timestamp_ b
  \/ (timestamp_ a = timestamp_ b /\ (sequence_ a < sequence_ b)%nat).

(** The buffer is in order, and the sequence numbers in use are below
    the next one to be given out. *)
Definition in_order (b : BufferType) : Prop :=
  StronglySorted entry_lt (entries b)
  /\ Forall (fun e => (sequence_ e < next_sequence b)%nat) (entries b).

End Buffer.

(* ===================================================================== *)
(** ** CoreLogic: initialization                                         *)
(* ===================================================================== *)

(** [mars/core_logic.h] and [mars/core_state.h] are not among the
    sources; this module follows sections 4.5 and 7 of the
    specification, and takes the loop that drives the filter from the
    end-to-end test. *)
Module CoreLogic.
Import Binary64 Pressure Buffer.

Inductive ErrorKind :=
  NotInitialized | OutlierRejected | NumericFailure | OutOfCapacity | UnknownSensor.

Inductive Status := Accepted | Rejected | Deferred | Failed (e : ErrorKind).

(** Modelled from the spec: the core-state definition, absent from the
    sources, as far as initialization needs it: the propagation sensor
    and the configured initial covariance. *)
Record CoreState :=
  { propagation_sensor_ : SensorHandle; initial_covariance : Covariance }.

Record CoreLogicType :=
  { core_states_ : CoreState;
    buffer_ : BufferType;
    core_is_initialized_ : bool }.

Definition CoreLogic_new (cs : CoreState) (capacity : nat) : CoreLogicType :=
  {| core_states_ := cs; buffer_ := Buffer.empty capacity;
     core_is_initialized_ := false |}.

Definition seed (p0 : Vector3d) (q0 : Quaterniond) : CoreStateType :=
  {| p_wi_ := p0; v_wi_ := setZero; q_wi_ := q0;
     b_w_ := setZero; b_a_ := setZero |}.

Record MeasurementType :=
  { m_sensor : SensorHandle; m_timestamp : Timestamp; m_data : list double }.

Section Filter.
(** The spec gives [initialize] no timestamp argument and does not
    say which one the seed entry carries. *)
Variable seed_time : CoreLogicType -> Timestamp.

(** Dispatch, propagation and update of an initialized filter are
    floating-point numerics outside the sources. *)
Variable process_initialized :
  CoreLogicType -> MeasurementType -> Status * CoreLogicType.

(** Modelled from the spec: [Initialize] of the absent core logic; "it
    then seeds [p_wi = p0], [q_wi = q0], zero velocity, zero biases, and
    a configured initial covariance", as a Core-State entry of the
    buffer. *)
Definition Initialize (p0 : Vector3d) (q0 : Quaterniond)
    (cl : CoreLogicType) : CoreLogicType :=
  let e := {| timestamp_ := seed_time cl;
              sensor_ := propagation_sensor_ (core_states_ cl);
              kind_ := CoreStateEntry;
              data_ := CoreSnapshot (seed p0 q0)
                         (initial_covariance (core_states_ cl));
              is_checkpoint := true;
              is_out_of_order_origin := false;
              sequence_ := O |} in
  {| core_states_ := core_states_ cl;
     buffer_ := fst (fst (Buffer.insert e (buffer_ cl)));
     core_is_initialized_ := true |}.

(** Modelled from the spec: [ProcessMeasurement] of the absent core
    logic; "the filter ignores all entries until [initialize] is
    called", and a call before that is the error NotInitialized,
    "returned to caller, no state change". *)
Definition ProcessMeasurement (cl : CoreLogicType) (m : MeasurementType)
  : Status * CoreLogicType :=
  if core_is_initialized_ cl then process_initialized cl m
  else (Failed NotInitialized, cl).

(** [Eigen::Vector3d p_wi_init(0, 0, 5)] and
    [Eigen::Quaterniond q_wi_init = Eigen::Quaterniond::Identity()] of
    the end-to-end test. *)
Definition p_wi_init : Vector3d := {| x_ := zero; y_ := zero; z_ := five |}.
Definition q_wi_init : Quaterniond := Identity.

(** One turn of the loop of the end-to-end test, as far as it acts on
    the filter: the entry goes to [ProcessMeasurement]; while the filter
    is not initialized, an entry of the propagation sensor triggers
    [Initialize] and any other entry is passed over with [continue].
    The rest of the loop body reads the buffer and writes rows to
    files. *)

Definition test_step (cl : CoreLogicType) (k : MeasurementType)
  : CoreLogicType :=
  let cl1 := snd (ProcessMeasurement cl k) in
  if negb (core_is_initialized_ cl1) then
    if Nat.eqb (m_sensor k) (propagation_sensor_ (core_states_ cl1))
    then Initialize p_wi_init q_wi_init cl1
    else cl1
  else cl1.

Definition test_loop (cl : CoreLogicType) (ms : list MeasurementType)
  : CoreLogicType :=
  fold_left test_step ms cl.

End Filter.

End CoreLogic.

(* ===================================================================== *)
(** ** The text of a row                                                 *)
(* ===================================================================== *)

Module RowText.
Import Digits.

(** The characters a row can hold: those of a formatted double, and the
    comma and the space of the separator. *)
Definition row_char (c : ascii) : bool :=
  numeral_char c || Ascii.eqb c "," || Ascii.eqb c " ".

(** Whether a field starts with a minus sign. *)
Definition starts_with_minus (s : string) : bool :=
  match s with
  | "" => false
  | String c _ => Ascii.eqb c "-"
  end.

End RowText.

(* ===================================================================== *)
(** ** The significant digits a field shows                              *)
(* ===================================================================== *)

Module ShownDigits.
Import Binary64 Printf Digits.

(** The digit characters of a string, in order. *)
Fixpoint digits_only (s : string) : string :=
  match s with
  | "" => ""
  | String c r => if is_digit c then String c (digits_only r) else digits_only r
  end.

(** The significant digits a numeral shows: the digits of its
    significand, from the first one that is not zero. *)
Definition shown_digits (s : string) : string :=
  digits_only (skip_leading (significand_part s)).



(** The number [m * 10 ^ k] and the magnitude of a double, both as
    whole multiples of [10 ^ -400 * 2 ^ -1074], a unit in which every
    quantity that occurs for a double is a whole number. *)
Definition decimal_on_scale (m k : Z) : Z :=
  m * unit_denominator * 10 ^ (400 + k).

Definition double_on_scale (v : double) : Z := scaled v * 10 ^ 400.

(** What a field [f] shows of the value [v] at 17 significant digits.
    For a finite value other than zero there is a significand [D] of
    17 digits and a decimal exponent [X] such that [D * 10 ^ (X - 16)]
    is within half a unit of its last digit of the magnitude of [v],
    and the significant digits of [f], with zeros put behind them up to
    17, are the digits of [D].  A zero, an infinity or a NaN shows no
    significant digit. *)
Definition shows_17_digits (v : double) (f : string) : Prop :=
  if (exp_field v =? 2047) || (scaled v =? 0) then shown_digits f = ""
  else
    exists D X : Z,
      10 ^ 16 <= D < 10 ^ 17 /\ -324 <= X <= 309
      /\ 2 * Z.abs (decimal_on_scale D (X - 16) - double_on_scale v)
         <= decimal_on_scale 1 (X - 16)
      /\ shown_digits f ++ zeros (17 - String.length (shown_digits f))
         = digits 17 D.

End ShownDigits.

(* ===================================================================== *)
(** ** Facts about strings                                               *)
(* ===================================================================== *)

Module StringFacts.
Import Digits.

Lemma append_nil_r (s : string) : s ++ "" = s.
Proof. induction s as [|c s IH]; simpl; [reflexivity | now rewrite IH]. Qed.

Lemma append_assoc (a b c : string) : (a ++ b) ++ c = a ++ (b ++ c).
Proof. induction a as [|x a IH]; simpl; [reflexivity | now rewrite IH]. Qed.

Lemma all_chars_app (p : ascii -> bool) (a b : string) :
  all_chars p (a ++ b) = all_chars p a && all_chars p b.
Proof.
  induction a as [|c a IH]; simpl; [reflexivity|].
  now rewrite IH, andb_assoc.
Qed.

Lemma all_chars_weaken (p q : ascii -> bool) (s : string) :
  (forall c, p c = true -> q c = true) ->
  all_chars p s = true -> all_chars q s = true.
Proof.
  intros Hpq. induction s as [|c s IH]; simpl; [reflexivity|].
  intros H. apply andb_true_iff in H as [Hc Hs].
  now rewrite (Hpq _ Hc), IH.
Qed.

Lemma eqb_empty (s : string) : String.eqb s "" = true <-> s = "".
Proof. apply String.eqb_eq. Qed.

End StringFacts.

(* ===================================================================== *)
(** ** The characters of a formatted double                              *)
(* ===================================================================== *)

Module PrintfChars.
Import Binary64 Printf Digits StringFacts.

Lemma digit_char_is_digit (d : Z) :
  0 <= d < 10 -> is_digit (digit_char d) = true.
Proof.
  intros H.
  assert (E : d = 0 \/ d = 1 \/ d = 2 \/ d = 3 \/ d = 4 \/ d = 5 \/ d = 6
              \/ d = 7 \/ d = 8 \/ d = 9) by lia.
  repeat (destruct E as [E | E]; [subst d; reflexivity|]).
  subst d; reflexivity.
Qed.

Lemma digits_all_digits (n : nat) (D : Z) :
  all_chars is_digit (digits n D) = true.
Proof.
  induction n as [|n IH]; cbn [digits all_chars]; [reflexivity|].
  rewrite IH, andb_true_r.
  apply digit_char_is_digit, Z.mod_pos_bound. lia.
Qed.

Lemma zeros_all_digits (n : nat) : all_chars is_digit (zeros n) = true.
Proof. induction n as [|n IH]; simpl; [reflexivity | exact IH]. Qed.

Lemma strip_all_chars (p : ascii -> bool) (s : string) :
  all_chars p s = true -> all_chars p (strip_trailing_zeros s) = true.
Proof.
  induction s as [|c s IH]; simpl; [reflexivity|].
  intros H. apply andb_true_iff in H as [Hc Hs].
  destruct (Ascii.eqb c "0" && String.eqb (strip_trailing_zeros s) "");
    simpl; [reflexivity|].
  now rewrite Hc, IH.
Qed.

Lemma digit_numeral (c : ascii) : is_digit c = true -> numeral_char c = true.
Proof. intros H. unfold numeral_char. now rewrite H. Qed.

Lemma digits_numeral (s : string) :
  all_chars is_digit s = true -> all_chars numeral_char s = true.
Proof. apply all_chars_weaken, digit_numeral. Qed.

Create HintDb numeral.

#[local] Hint Resolve digits_all_digits zeros_all_digits strip_all_chars
  digits_numeral : numeral.

Lemma positional_numeral (P D X : Z) :
  all_chars numeral_char (positional P D X) = true.
Proof.
  unfold positional.
  destruct (String.eqb _ ""); [auto with numeral|].
  rewrite !all_chars_app. simpl.
  repeat (apply andb_true_iff; split); auto with numeral.
Qed.

Lemma exponent_suffix_numeral (X : Z) :
  all_chars numeral_char (exponent_suffix X) = true.
Proof.
  unfold exponent_suffix.
  rewrite !all_chars_app.
  repeat (apply andb_true_iff; split); auto with numeral.
  destruct (X <? 0); reflexivity.
Qed.

Lemma layout_numeral (P D X : Z) :
  all_chars numeral_char (layout P D X) = true.
Proof.
  unfold layout.
  destruct ((X <? -4) || (P <=? X)).
  - rewrite all_chars_app, positional_numeral, exponent_suffix_numeral.
    reflexivity.
  - destruct (0 <=? X); [apply positional_numeral|].
    rewrite !all_chars_app.
    repeat (apply andb_true_iff; split); auto with numeral.
Qed.

(** A formatted double is made of digits, signs, the point, the
    exponent mark and the letters of [inf] and [nan]. *)
Lemma format_g_numeral (p : Z) (b : double) :
  all_chars numeral_char (format_g p b) = true.
Proof.
  unfold format_g.
  assert (Hs : all_chars numeral_char (if sign_bit b then "-" else "") = true)
    by (destruct (sign_bit b); reflexivity).
  destruct (exp_field b =? 2047).
  - rewrite all_chars_app, Hs. destruct (frac_field b =? 0); reflexivity.
  - destruct (scaled b =? 0).
    + rewrite all_chars_app, Hs. reflexivity.
    + destruct (decimal_of (Z.max 1 p) b) as [D X].
      rewrite all_chars_app, Hs. apply layout_numeral.
Qed.

End PrintfChars.

(* ===================================================================== *)
(** ** The pressure-sensor state and its rows                            *)
(* ===================================================================== *)

Module PressureFacts.
Import Binary64 Printf StringStream Pressure Digits StringFacts PrintfChars.

(** *** Splitting a row into fields *)

Lemma split_fields_aux_cons (cur : string) (c : ascii) (r : string) :
  split_fields_aux cur (String c r)
  = match r with
    | String c' r' =>
        if Ascii.eqb c "," && Ascii.eqb c' " "
        then cur :: split_fields_aux "" r'
        else split_fields_aux (cur ++ String c "") r
    | "" => [cur ++ String c ""]
    end.
Proof. destruct r; reflexivity. Qed.

Lemma append_char (cur : string) (c : ascii) (a : string) :
  (cur ++ String c "") ++ a = cur ++ String c a.
Proof. now rewrite append_assoc. Qed.

Lemma split_last (a cur : string) :
  all_chars not_comma a = true -> split_fields_aux cur a = [cur ++ a].
Proof.
  revert cur. induction a as [|c a IH]; intros cur H.
  - cbn. now rewrite append_nil_r.
  - cbn [all_chars] in H. apply andb_true_iff in H as [Hc Ha].
    rewrite split_fields_aux_cons. destruct a as [|c' a'].
    + reflexivity.
    + unfold not_comma in Hc. apply negb_true_iff in Hc. rewrite Hc.
      cbn [andb]. rewrite (IH _ Ha), append_char. reflexivity.
Qed.

Lemma split_field (a rest cur : string) :
  all_chars not_comma a = true ->
  split_fields_aux cur (a ++ ", " ++ rest)
  = (cur ++ a) :: split_fields_aux "" rest.
Proof.
  revert cur. induction a as [|c a IH]; intros cur H.
  - cbn. now rewrite append_nil_r.
  - cbn [all_chars] in H. apply andb_true_iff in H as [Hc Ha].
    unfold not_comma in Hc. apply negb_true_iff in Hc.
    change (String c a ++ ", " ++ rest) with (String c (a ++ ", " ++ rest)).
    rewrite split_fields_aux_cons.
    destruct (a ++ ", " ++ rest) as [|c' r'] eqn:E.
    + destruct a; discriminate E.
    + rewrite Hc. cbn [andb]. rewrite (IH _ Ha), append_char.
      reflexivity.
Qed.

Lemma numeral_not_comma (c : ascii) :
  numeral_char c = true -> not_comma c = true.
Proof.
  unfold not_comma. destruct (Ascii.eqb c ",") eqn:E; [|reflexivity].
  apply Ascii.eqb_eq in E. subst c. discriminate.
Qed.

Lemma format_g_no_comma (p : Z) (b : double) :
  all_chars not_comma (format_g p b) = true.
Proof.
  apply all_chars_weaken with (p := numeral_char);
    [exact numeral_not_comma | apply format_g_numeral].
Qed.

(** *** The row as a string *)

Lemma to_csv_string_eq (s : PressureSensorStateType) (t : double) :
  to_csv_string s t
  = format_g 17 t ++ ", " ++ format_g 17 (coeff (p_ip_ s) 0)
      ++ ", " ++ format_g 17 (coeff (p_ip_ s) 1)
      ++ ", " ++ format_g 17 (coeff (p_ip_ s) 2).
Proof.
  cbv [to_csv_string call_to_csv_string run to_csv_string_body fold_left
       os_precision os_put_double os_put_string put_double put_string
       precision fresh str contents precision_ this os fst].
  change (String.append "") with (fun x : string => x). cbv beta.
  now rewrite !append_assoc.
Qed.

Lemma split_row (a b c d : string) :
  all_chars not_comma a = true -> all_chars not_comma b = true ->
  all_chars not_comma c = true -> all_chars not_comma d = true ->
  split_fields (a ++ ", " ++ b ++ ", " ++ c ++ ", " ++ d) = [a; b; c; d].
Proof.
  intros Ha Hb Hc Hd. unfold split_fields.
  rewrite (split_field a _ "" Ha), (split_field b _ "" Hb),
    (split_field c _ "" Hc), (split_last d "" Hd).
  reflexivity.
Qed.

(** *** Statements of a const member function *)

Lemma run_keeps_receiver (body : list stmt) :
  Forall keeps_receiver body -> forall f, this (run body f) = this f.
Proof.
  unfold run. induction 1 as [|st body Hst _ IH]; intros f; cbn [fold_left].
  - reflexivity.
  - now rewrite IH, Hst.
Qed.

Lemma to_csv_string_body_keeps_receiver (t : double) :
  Forall keeps_receiver (to_csv_string_body t).
Proof. unfold to_csv_string_body. repeat constructor. Qed.

(** C5: the state type has the one member [p_ip_], a vector of three
    coefficients, next to what it inherits, and the covariance size it
    hands to its base class is that number, 3. *)
Theorem pressure_state_dimension :
  cov_size_ (base PressureSensorStateType_new) = 3
  /\ (forall s : PressureSensorStateType,
        Z.of_nat (List.length (coeffs (p_ip_ s)))
        = cov_size_ (base PressureSensorStateType_new))
  /\ (forall s : PressureSensorStateType,
        coeffs (p_ip_ s)
        = [coeff (p_ip_ s) 0; coeff (p_ip_ s) 1; coeff (p_ip_ s) 2]
        /\ s = {| base := base s;
                  p_ip_ := {| x_ := coeff (p_ip_ s) 0; y_ := coeff (p_ip_ s) 1;
                              z_ := coeff (p_ip_ s) 2 |} |}).
Proof.
  split; [reflexivity|]. split; [reflexivity|].
  intros [b [x y z]]. split; reflexivity.
Qed.

(** C6: the header is ["t, p_ip_x, p_ip_y, p_ip_z"]; a row has four
    fields, in the order of the header: the timestamp and the three
    coefficients of [p_ip_], each as the stream formats it. *)
Theorem csv_header_and_row_fields (s : PressureSensorStateType) (t : double) :
  get_csv_state_header_string = "t, p_ip_x, p_ip_y, p_ip_z"
  /\ split_fields get_csv_state_header_string
     = ["t"; "p_ip_x"; "p_ip_y"; "p_ip_z"]
  /\ split_fields (to_csv_string s t)
     = [format_g 17 t; format_g 17 (coeff (p_ip_ s) 0);
        format_g 17 (coeff (p_ip_ s) 1); format_g 17 (coeff (p_ip_ s) 2)].
Proof.
  split; [reflexivity|]. split; [reflexivity|].
  rewrite to_csv_string_eq.
  apply split_row; apply format_g_no_comma.
Qed.

(** C9: a default-constructed state has [p_ip_] at zero, the pattern of
    [+0.0], in each of its coefficients; a state is made of the
    inherited covariance size and of [p_ip_] and of nothing else: no
    bias, no scale. *)
Theorem default_state_is_zero :
  coeffs (p_ip_ PressureSensorStateType_new) = [zero; zero; zero]
  /\ (forall i : nat, coeff (p_ip_ PressureSensorStateType_new) i = 0)
  /\ (forall s : PressureSensorStateType,
        s = {| base := {| cov_size_ := cov_size_ (base s) |};
               p_ip_ := p_ip_ s |}).
Proof.
  split; [reflexivity|]. split.
  - intros [|[|i]]; reflexivity.
  - intros [[n] p]. reflexivity.
Qed.

(** C10: a call of [to_csv_string] returns its receiver as it found it,
    [p_ip_] and covariance size included, and a second call with the
    same timestamp returns the same string; the header function is
    static and has no receiver to change. *)
Theorem to_csv_string_keeps_state (s : PressureSensorStateType) (t : double) :
  let after := snd (call_to_csv_string s t) in
  after = s
  /\ p_ip_ after = p_ip_ s
  /\ cov_size_ (base after) = cov_size_ (base s)
  /\ fst (call_to_csv_string after t) = fst (call_to_csv_string s t)
  /\ get_csv_state_header_string = "t, p_ip_x, p_ip_y, p_ip_z".
Proof.
  assert (E : snd (call_to_csv_string s t) = s).
  { unfold call_to_csv_string. cbn [snd].
    now rewrite run_keeps_receiver by apply to_csv_string_body_keeps_receiver. }
  cbv zeta. rewrite E. repeat split; reflexivity.
Qed.

End PressureFacts.

(* ===================================================================== *)
(** ** The buffer stays in order                                         *)
(* ===================================================================== *)

Module BufferFacts.
Import Buffer.

Lemma entry_lt_timestamp (a b : BufferEntryType) :
  entry_lt a b -> timestamp_ a <= timestamp_ b.
Proof. unfold entry_lt; lia. Qed.

Lemma insert_sorted_In (e x : BufferEntryType) (es : list BufferEntryType) :
  In x (fst (insert_sorted e es)) -> x = e \/ In x es.
Proof.
  induction es as [|h t IH]; cbn [insert_sorted].
  - cbn. intuition.
  - destruct (timestamp_ e <? timestamp_ h).
    + cbn. intuition.
    + destruct (insert_sorted e t) as [r i]. cbn in *. intuition.
Qed.

Lemma insert_sorted_sorted (e : BufferEntryType) (es : list BufferEntryType) :
  StronglySorted entry_lt es ->
  Forall (fun h => (sequence_ h < sequence_ e)%nat) es ->
  StronglySorted entry_lt (fst (insert_sorted e es)).
Proof.
  induction 1 as [|h t Ht IH Hh]; intros Hseq; cbn [insert_sorted].
  - cbn. repeat constructor.
  - inversion Hseq as [|? ? Hhe Hte]; subst.
    destruct (timestamp_ e <? timestamp_ h) eqn:E.
    + cbn. constructor; [now constructor|].
      apply Z.ltb_lt in E.
      constructor; [now left|].
      rewrite Forall_forall in Hh |- *. intros x Hx.
      left. pose proof (entry_lt_timestamp _ _ (Hh x Hx)). lia.
    + apply Z.ltb_ge in E.
      pose proof (fun x => insert_sorted_In e x t) as HIn. specialize (IH Hte).
      destruct (insert_sorted e t) as [r i]. cbn in *.
      constructor; [exact IH|].
      rewrite Forall_forall in Hh |- *. intros x Hx.
      destruct (HIn x Hx) as [-> | Hxt]; [|now apply Hh].
      unfold entry_lt. lia.
Qed.

Lemma firstn_In {A} (x : A) (n : nat) (l : list A) :
  In x (firstn n l) -> In x l.
Proof.
  revert n. induction l as [|h t IH]; intros [|n]; cbn; try tauto.
  intros [-> | H]; [now left | right; eauto].
Qed.

Lemma firstn_sorted (n : nat) (es : list BufferEntryType) :
  StronglySorted entry_lt es -> StronglySorted entry_lt (firstn n es).
Proof.
  revert n. induction es as [|h t IH]; intros [|n] H; cbn; try constructor.
  - apply IH. now inversion H.
  - inversion H as [|? ? _ Hh]; subst.
    rewrite Forall_forall in Hh |- *. intros x Hx.
    apply Hh. eapply firstn_In; eauto.
Qed.

Lemma firstn_Forall {A} (P : A -> Prop) (n : nat) (l : list A) :
  Forall P l -> Forall P (firstn n l).
Proof.
  rewrite !Forall_forall. intros H x Hx. apply H.
  eapply firstn_In; eauto.
Qed.

Lemma empty_in_order (capacity : nat) : in_order (empty capacity).
Proof. split; constructor. Qed.

Lemma insert_in_order (e : BufferEntryType) (b : BufferType) :
  in_order b -> in_order (fst (fst (insert e b))).
Proof.
  intros [Hs Hq]. unfold insert.
  pose proof (insert_sorted_sorted (with_sequence (next_sequence b) e)
                (entries b) Hs Hq) as Hs'.
  pose proof (fun x => insert_sorted_In (with_sequence (next_sequence b) e)
                x (entries b)) as HIn.
  destruct (insert_sorted _ (entries b)) as [es i]. cbn in *.
  split; cbn; [exact Hs'|].
  rewrite Forall_forall in Hq |- *. intros x Hx.
  destruct (HIn x Hx) as [-> | Hxb]; cbn; [lia|].
  specialize (Hq x Hxb). lia.
Qed.

Lemma remove_after_in_order (i : nat) (b : BufferType) :
  in_order b -> in_order (remove_after i b).
Proof.
  intros [Hs Hq]. split; cbn [remove_after entries next_sequence].
  - now apply firstn_sorted.
  - now apply firstn_Forall.
Qed.

Lemma clear_in_order (b : BufferType) : in_order b -> in_order (clear b).
Proof. intros _. split; constructor. Qed.

Lemma prune_oldest_in_order protected (b : BufferType) :
  in_order b -> in_order (prune_oldest protected b).
Proof.
  intros [Hs Hq]. unfold prune_oldest.
  destruct (_ && _); [|now split].
  destruct (entries b) as [|h t] eqn:E; split; cbn; rewrite ?E; cbn;
    try constructor.
  - now inversion Hs.
  - now inversion Hq.
Qed.

Lemma apply_in_order protected (b : BufferType) (o : operation) :
  in_order b -> in_order (apply protected b o).
Proof.
  destruct o; cbn [apply];
    auto using insert_in_order, prune_oldest_in_order,
      remove_after_in_order, clear_in_order.
Qed.

Lemma in_order_positions (b : BufferType) (i j : nat) (ei ej : BufferEntryType) :
  in_order b -> (i < j)%nat ->
  nth_error (entries b) i = Some ei -> nth_error (entries b) j = Some ej ->
  timestamp_ ei <= timestamp_ ej
  /\ (timestamp_ ei = timestamp_ ej -> (sequence_ ei < sequence_ ej)%nat).
Proof.
  intros [Hs _]. revert i j. induction Hs as [|h t Ht IH Hh]; intros i j Hij Hi Hj.
  - destruct i; discriminate.
  - destruct j as [|j]; [lia|]. destruct i as [|i]; cbn in Hi, Hj.
    + injection Hi as <-. apply nth_error_In in Hj.
      rewrite Forall_forall in Hh. specialize (Hh _ Hj).
      unfold entry_lt in Hh. lia.
    + apply (IH i j); [lia | assumption | assumption].
Qed.

(** C4: whatever sequence of [insert], [prune_oldest], [remove_after]
    and [clear] a buffer has gone through, its entries stand in
    non-decreasing timestamp order, and entries of equal timestamp in
    the order of their arrival: each sequence number is the count of
    insertions that came before. *)
Theorem buffer_stays_in_order protected (capacity : nat) (ops : list operation) :
  let b := fold_left (apply protected) ops (empty capacity) in
  StronglySorted entry_lt (entries b)
  /\ Forall (fun e => (sequence_ e < next_sequence b)%nat) (entries b)
  /\ forall e, entries (fst (fst (insert e b)))
               = fst (insert_sorted (with_sequence (next_sequence b) e) (entries b)).
Proof.
  cbv zeta.
  assert (H : in_order (fold_left (apply protected) ops (empty capacity))).
  { generalize (empty_in_order capacity). generalize (empty capacity).
    induction ops as [|o ops IH]; intros b Hb; cbn [fold_left];
      [exact Hb | apply IH, apply_in_order, Hb]. }
  destruct H as [Hs Hq]. repeat split; try assumption.
  intros e. unfold insert. now destruct (insert_sorted _ _).
Qed.

End BufferFacts.

(* ===================================================================== *)
(** ** Nothing is processed before initialization                        *)
(* ===================================================================== *)

Module CoreLogicFacts.
Import Binary64 Pressure Buffer CoreLogic.

Section Filter.
Variable seed_time : CoreLogicType -> Timestamp.
Variable process_initialized :
  CoreLogicType -> MeasurementType -> Status * CoreLogicType.

Lemma ProcessMeasurement_uninitialized (cl : CoreLogicType) (m : MeasurementType) :
  core_is_initialized_ cl = false ->
  ProcessMeasurement process_initialized cl m = (Failed NotInitialized, cl).
Proof. intros H. unfold CoreLogic.ProcessMeasurement. now rewrite H. Qed.

Lemma calls_before_initialize (cl : CoreLogicType) (ms : list MeasurementType) :
  core_is_initialized_ cl = false ->
  fold_left (fun c m => snd (ProcessMeasurement process_initialized c m)) ms cl = cl.
Proof.
  intros H. induction ms as [|m ms IH]; cbn [fold_left]; [reflexivity|].
  now rewrite ProcessMeasurement_uninitialized.
Qed.

Lemma test_loop_waits (cl : CoreLogicType) (ms : list MeasurementType) :
  core_is_initialized_ cl = false ->
  Forall (fun m => m_sensor m <> propagation_sensor_ (core_states_ cl)) ms ->
  test_loop seed_time process_initialized cl ms = cl.
Proof.
  intros H. unfold CoreLogic.test_loop.
  induction 1 as [|m ms Hm _ IH]; cbn [fold_left]; [reflexivity|].
  unfold test_step at 2. rewrite ProcessMeasurement_uninitialized by exact H.
  cbn [snd]. rewrite H. cbn [negb].
  apply Nat.eqb_neq in Hm. rewrite Hm. exact IH.
Qed.

Lemma test_loop_app (cl : CoreLogicType) (a b : list MeasurementType) :
  test_loop seed_time process_initialized cl (a ++ b)
  = test_loop seed_time process_initialized
      (test_loop seed_time process_initialized cl a) b.
Proof. unfold CoreLogic.test_loop. apply fold_left_app. Qed.

(** C3: calls of [ProcessMeasurement] on a filter that has not been
    initialized return NotInitialized and leave it as constructed;
    [Initialize] then makes it initialized on one Core-State entry
    that holds [p0], [q0], zero velocity, zero biases and the
    configured covariance.  In the test's loop the filter stays as
    constructed until the first entry of the propagation sensor, at
    which it is initialized at [(0, 0, 5)] and the identity. *)
Theorem nothing_processed_before_Initialize
    (cs : CoreState) (capacity : nat) (ms : list MeasurementType)
    (p0 : Vector3d) (q0 : Quaterniond) :
  let fresh_logic := CoreLogic_new cs capacity in
  let cl := fold_left (fun c m => snd (ProcessMeasurement process_initialized c m)) ms fresh_logic in
  cl = fresh_logic
  /\ (forall m, ProcessMeasurement process_initialized cl m = (Failed NotInitialized, cl))
  /\ core_is_initialized_ (Initialize seed_time p0 q0 cl) = true
  /\ (exists e,
        entries (buffer_ (Initialize seed_time p0 q0 cl)) = [e]
        /\ get_latest_state (buffer_ (Initialize seed_time p0 q0 cl)) = Some e
        /\ data_ e
           = CoreSnapshot
               {| p_wi_ := p0;
                  v_wi_ := {| x_ := 0; y_ := 0; z_ := 0 |};
                  q_wi_ := q0;
                  b_w_ := {| x_ := 0; y_ := 0; z_ := 0 |};
                  b_a_ := {| x_ := 0; y_ := 0; z_ := 0 |} |}
               (initial_covariance cs))
  /\ (forall pre k,
        Forall (fun m => m_sensor m <> propagation_sensor_ cs) pre ->
        m_sensor k = propagation_sensor_ cs ->
        test_loop seed_time process_initialized fresh_logic pre = fresh_logic
        /\ test_loop seed_time process_initialized fresh_logic (pre ++ [k])
           = Initialize seed_time p_wi_init q_wi_init fresh_logic).
Proof.
  cbv zeta. rewrite calls_before_initialize by reflexivity.
  split; [reflexivity|].
  split; [intros m; now apply ProcessMeasurement_uninitialized|].
  split; [reflexivity|].
  split; [eexists; repeat split|].
  intros pre k Hpre Hk.
  rewrite test_loop_app, test_loop_waits by (reflexivity || exact Hpre).
  split; [reflexivity|].
  unfold CoreLogic.test_loop. cbn [fold_left]. unfold test_step.
  rewrite ProcessMeasurement_uninitialized by reflexivity.
  cbn [snd CoreLogic_new core_is_initialized_ negb core_states_].
  now rewrite Hk, Nat.eqb_refl.
Qed.

End Filter.

Lemma nothing_processed_before_Initialize_witness :
  let cs := {| propagation_sensor_ := 0%nat; initial_covariance := [] |} in
  let pose := {| m_sensor := 1%nat; m_timestamp := 10; m_data := [one] |} in
  let imu := {| m_sensor := 0%nat; m_timestamp := 20; m_data := [zero] |} in
  let idle := fun (cl : CoreLogicType) (_ : MeasurementType) => (Accepted, cl) in
  Forall (fun m => m_sensor m <> propagation_sensor_ cs) [pose]
  /\ m_sensor imu = propagation_sensor_ cs
  /\ test_loop (fun _ => 0) idle (CoreLogic_new cs 10) ([pose] ++ [imu])
     = Initialize (fun _ => 0) p_wi_init q_wi_init (CoreLogic_new cs 10).
Proof.
  cbv zeta.
  assert (Hpose : Forall (fun m => m_sensor m <> 0%nat)
                    [{| m_sensor := 1%nat; m_timestamp := 10; m_data := [one] |}])
    by (repeat constructor; cbn; lia).
  split; [exact Hpose|]. split; [reflexivity|].
  apply (nothing_processed_before_Initialize (fun _ => 0)
           (fun cl _ => (Accepted, cl))
           {| propagation_sensor_ := 0%nat; initial_covariance := [] |}
           10%nat [] p_wi_init q_wi_init);
    [exact Hpose | reflexivity].
Defined.

End CoreLogicFacts.

(* ===================================================================== *)
(** ** The order of the bit patterns is the order of the values          *)
(* ===================================================================== *)

Module Binary64Facts.
Import Binary64.

Lemma exp_field_div (b : double) : exp_field b = (b / 2 ^ 52) mod 2 ^ 11.
Proof.
  unfold exp_field. rewrite Z.land_ones, Z.shiftr_div_pow2 by lia. reflexivity.
Qed.

Lemma frac_field_mod (b : double) : frac_field b = b mod 2 ^ 52.
Proof. unfold frac_field. now rewrite Z.land_ones by lia. Qed.

Lemma magnitude_bits_mod (b : double) : magnitude_bits b = b mod 2 ^ 63.
Proof. unfold magnitude_bits. now rewrite Z.land_ones by lia. Qed.

Lemma exp_field_range (b : double) : 0 <= exp_field b < 2048.
Proof. rewrite exp_field_div. apply Z.mod_pos_bound. lia. Qed.

Lemma frac_field_range (b : double) : 0 <= frac_field b < 2 ^ 52.
Proof. rewrite frac_field_mod. apply Z.mod_pos_bound. lia. Qed.

(** A pattern below [2 ^ 63] is its exponent field times [2 ^ 52] plus
    its fraction field. *)
Lemma fields_of_magnitude (c : Z) :
  0 <= c < 2 ^ 63 -> c = exp_field c * 2 ^ 52 + frac_field c.
Proof.
  intros H. rewrite exp_field_div, frac_field_mod.
  assert (0 <= c / 2 ^ 52 < 2 ^ 11).
  { split; [apply Z.div_pos; lia|].
    apply Z.div_lt_upper_bound; lia. }
  rewrite (Z.mod_small (c / 2 ^ 52)) by assumption.
  pose proof (Z.div_mod c (2 ^ 52)). lia.
Qed.

Lemma fields_unique (e f : Z) :
  0 <= e < 2 ^ 11 -> 0 <= f < 2 ^ 52 ->
  exp_field (e * 2 ^ 52 + f) = e /\ frac_field (e * 2 ^ 52 + f) = f.
Proof.
  intros He Hf. rewrite exp_field_div, frac_field_mod.
  rewrite Z.div_add_l, Z.div_small, Z.add_0_r by lia.
  rewrite Z.mod_small by lia.
  rewrite Z.add_comm, Z.mod_add, Z.mod_small by lia. auto.
Qed.

Lemma ulp_scaled_pos (c : Z) : 0 < ulp_scaled c.
Proof.
  unfold ulp_scaled, exponent. pose proof (exp_field_range c).
  destruct (exp_field c =? 0) eqn:E; apply Z.pow_pos_nonneg; lia.
Qed.

Lemma mantissa_range (c : Z) : 0 <= mantissa c < 2 ^ 53.
Proof.
  unfold mantissa. pose proof (frac_field_range c).
  destruct (exp_field c =? 0); lia.
Qed.

Lemma scaled_eq (c : Z) : scaled c = mantissa c * ulp_scaled c.
Proof. reflexivity. Qed.

(** The next pattern is one unit in the last place further. *)
Lemma scaled_succ (c : Z) :
  0 <= c -> c + 1 < 2 ^ 63 -> scaled (c + 1) = scaled c + ulp_scaled c.
Proof.
  intros H0 H1.
  pose proof (fields_of_magnitude c ltac:(lia)) as Hc.
  pose proof (exp_field_range c) as He. pose proof (frac_field_range c) as Hf.
  set (e := exp_field c) in *. set (f := frac_field c) in *.
  assert (Hcases : f + 1 < 2 ^ 52 \/ f + 1 = 2 ^ 52) by lia.
  destruct Hcases as [Hlt | Heq].
  - destruct (fields_unique e (f + 1) ltac:(lia) ltac:(lia)) as [E1 F1].
    replace (e * 2 ^ 52 + (f + 1)) with (c + 1) in E1, F1 by lia.
    unfold scaled, ulp_scaled, mantissa, exponent. rewrite E1, F1.
    fold e. fold f. destruct (e =? 0); lia.
  - assert (He1 : e + 1 < 2 ^ 11) by nia.
    destruct (fields_unique (e + 1) 0 ltac:(lia) ltac:(lia)) as [E1 F1].
    replace ((e + 1) * 2 ^ 52 + 0) with (c + 1) in E1, F1 by lia.
    unfold scaled, ulp_scaled, mantissa, exponent. rewrite E1, F1.
    fold e. fold f.
    replace (e + 1 =? 0) with false by (symmetry; apply Z.eqb_neq; lia).
    destruct (e =? 0) eqn:E0.
    + apply Z.eqb_eq in E0. rewrite E0. replace f with (2 ^ 52 - 1) by lia.
      reflexivity.
    + apply Z.eqb_neq in E0.
      replace (e + 1 - 1075 + 1074) with (Z.succ (e - 1075 + 1074)) by lia.
      rewrite Z.pow_succ_r by lia.
      replace f with (2 ^ 52 - 1) by lia. lia.
Qed.

Lemma scaled_nonneg (c : Z) : 0 <= scaled c.
Proof.
  rewrite scaled_eq. pose proof (mantissa_range c). pose proof (ulp_scaled_pos c).
  nia.
Qed.

Lemma scaled_mono_aux (n : nat) (c : Z) :
  0 <= c -> c + Z.of_nat n < 2 ^ 63 -> scaled c <= scaled (c + Z.of_nat n).
Proof.
  intros H0. induction n as [|n IH]; intros Hn.
  - rewrite Z.add_0_r. lia.
  - replace (c + Z.of_nat (S n)) with (c + Z.of_nat n + 1) by lia.
    rewrite scaled_succ by lia.
    pose proof (ulp_scaled_pos (c + Z.of_nat n)). specialize (IH ltac:(lia)). lia.
Qed.

Lemma scaled_mono (c1 c2 : Z) :
  0 <= c1 <= c2 -> c2 < 2 ^ 63 -> scaled c1 <= scaled c2.
Proof.
  intros H1 H2. replace c2 with (c1 + Z.of_nat (Z.to_nat (c2 - c1))) by lia.
  apply scaled_mono_aux; lia.
Qed.

Lemma scaled_strict_mono (c1 c2 : Z) :
  0 <= c1 < c2 -> c2 < 2 ^ 63 -> scaled c1 < scaled c2.
Proof.
  intros H1 H2.
  pose proof (scaled_succ c1 ltac:(lia) ltac:(lia)).
  pose proof (ulp_scaled_pos c1).
  pose proof (scaled_mono (c1 + 1) c2 ltac:(lia) ltac:(lia)). lia.
Qed.

(** A value is less than [2 ^ 53] units in the last place. *)
Lemma scaled_lt_ulp (c : Z) : scaled c < 2 ^ 53 * ulp_scaled c.
Proof.
  rewrite scaled_eq. pose proof (mantissa_range c). pose proof (ulp_scaled_pos c).
  nia.
Qed.

Lemma scaled_le_ulp_pred (c : Z) :
  1 <= c < 2 ^ 63 -> scaled c <= 2 ^ 53 * ulp_scaled (c - 1).
Proof.
  intros H. pose proof (scaled_succ (c - 1) ltac:(lia) ltac:(lia)) as E.
  replace (c - 1 + 1) with c in E by lia. rewrite E, scaled_eq.
  pose proof (mantissa_range (c - 1)). pose proof (ulp_scaled_pos (c - 1)).
  nia.
Qed.

Lemma scaled_zero_iff (c : Z) : 0 <= c < 2 ^ 63 -> (scaled c = 0 <-> c = 0).
Proof.
  intros H. split; [|intros ->; reflexivity].
  intros E. destruct (Z.eq_dec c 0) as [|Hne]; [assumption|].
  pose proof (scaled_strict_mono 0 c ltac:(lia) ltac:(lia)) as Hlt.
  change (scaled 0) with 0 in Hlt. lia.
Qed.

End Binary64Facts.

(* ===================================================================== *)
(** ** The decimal digits are the value, rounded                         *)
(* ===================================================================== *)

Module PrintfFacts.
Import Binary64 Printf Binary64Facts.

Lemma pow10_pos (k : Z) : 0 <= k -> 0 < 10 ^ k.
Proof. intros H. apply Z.pow_pos_nonneg; lia. Qed.

Lemma pow10_add (a b : Z) : 0 <= a -> 0 <= b -> 10 ^ (a + b) = 10 ^ a * 10 ^ b.
Proof. intros. now apply Z.pow_add_r. Qed.

(** [scale10 k a b] is [a / b * 10 ^ k]: both parts carry to a common
    scale [10 ^ K]. *)
Lemma scale10_spec (k a b K : Z) :
  0 < b -> 0 <= K -> 0 <= K + k ->
  exists c, 0 < c
    /\ fst (scale10 k a b) * c = a * 10 ^ (K + k)
    /\ snd (scale10 k a b) * c = b * 10 ^ K.
Proof.
  intros Hb HK Hk. unfold scale10.
  destruct (0 <=? k) eqn:E; cbn [fst snd].
  - apply Z.leb_le in E. exists (10 ^ K).
    split; [now apply pow10_pos|]. rewrite pow10_add by lia. split; ring.
  - apply Z.leb_gt in E. exists (10 ^ (K + k)).
    split; [now apply pow10_pos|]. split; [ring|].
    replace K with ((- k) + (K + k)) at 2 by lia.
    rewrite (pow10_add (- k)) by lia. ring.
Qed.

Lemma scale10_den_pos (k a b : Z) : 0 < b -> 0 < snd (scale10 k a b).
Proof.
  intros Hb. unfold scale10. destruct (0 <=? k) eqn:E; cbn [snd]; [assumption|].
  apply Z.leb_gt in E. pose proof (pow10_pos (- k) ltac:(lia)). nia.
Qed.

Lemma scale10_num_nonneg (k a b : Z) : 0 <= a -> 0 <= fst (scale10 k a b).
Proof.
  intros Ha. unfold scale10. destruct (0 <=? k) eqn:E; cbn [fst]; [|assumption].
  apply Z.leb_le in E. pose proof (pow10_pos k E). nia.
Qed.

Lemma round_half_even_spec (n d : Z) :
  0 < d -> - d <= 2 * (round_half_even n d * d - n) <= d.
Proof.
  intros Hd. unfold round_half_even.
  pose proof (Z.div_mod n d ltac:(lia)) as E.
  pose proof (Z.mod_pos_bound n d Hd) as Hr.
  destruct (Z.compare_spec (2 * (n mod d)) d) as [H | H | H];
    [destruct (Z.even (n / d))| |]; nia.
Qed.

Lemma rounded_in_bracket (q t v lo hi : Z) :
  0 < t -> - t <= 2 * (q * t - v) <= t -> lo * t <= v < hi * t ->
  lo <= q <= hi.
Proof. intros Ht Hq Hv. nia. Qed.

Lemma pow10_le_spec (X N U K : Z) :
  0 < U -> 0 <= K -> 0 <= K - X ->
  pow10_le X N U = true <-> U * 10 ^ K <= N * 10 ^ (K - X).
Proof.
  intros HU HK HX. unfold pow10_le.
  destruct (scale10_spec (- X) N U K HU HK ltac:(lia)) as (c & Hc & En & Ed).
  destruct (scale10 (- X) N U) as [n d]. cbn [fst snd] in *.
  replace (K + - X) with (K - X) in En by lia.
  rewrite Z.leb_le, <- En, <- Ed. split; intros H; nia.
Qed.

(** The search stops at the decimal exponent when the start value is
    above it and the fuel reaches below it. *)
Lemma decimal_exponent_spec (fuel : nat) (X N U : Z) :
  pow10_le (X + 1) N U = false ->
  pow10_le (X - Z.of_nat fuel + 1) N U = true ->
  let R := decimal_exponent fuel X N U in
  pow10_le R N U = true /\ pow10_le (R + 1) N U = false
  /\ X - Z.of_nat fuel + 1 <= R <= X.
Proof.
  revert X. induction fuel as [|fuel IH]; intros X Hup Hlow; cbn [decimal_exponent].
  - replace (X - Z.of_nat 0 + 1) with (X + 1) in Hlow by lia. congruence.
  - destruct (pow10_le X N U) eqn:E.
    + cbv zeta. repeat split; try assumption; lia.
    + specialize (IH (X - 1)).
      replace (X - 1 + 1) with X in IH by lia.
      replace (X - 1 - Z.of_nat fuel + 1) with (X - Z.of_nat (S fuel) + 1) in IH by lia.
      specialize (IH E Hlow). cbv zeta in IH |- *.
      destruct IH as (H1 & H2 & H3). repeat split; try assumption; lia.
Qed.

Lemma scaled_finite_bound (b : double) :
  exp_field b < 2047 -> scaled b < 2 ^ 2098.
Proof.
  intros H. pose proof (scaled_lt_ulp b) as Hlt.
  assert (Hu : ulp_scaled b <= 2 ^ 2045).
  { unfold ulp_scaled, exponent. pose proof (exp_field_range b).
    destruct (exp_field b =? 0); apply Z.pow_le_mono_r; lia. }
  change (2 ^ 2098) with (2 ^ 53 * 2 ^ 2045). nia.
Qed.

Lemma decimal_exponent_double (b : double) :
  exp_field b < 2047 -> 0 < scaled b ->
  let X0 := decimal_exponent 633 308 (scaled b) unit_denominator in
  pow10_le X0 (scaled b) unit_denominator = true
  /\ pow10_le (X0 + 1) (scaled b) unit_denominator = false
  /\ -324 <= X0 <= 308.
Proof.
  intros Hfin Hpos.
  pose proof (scaled_finite_bound b Hfin) as Hb.
  apply (decimal_exponent_spec 633 308).
  - unfold pow10_le, scale10. change (0 <=? - (308 + 1)) with false.
    cbv iota beta. apply Z.leb_gt.
    change (- - (308 + 1)) with 309.
    assert (2 ^ 2098 <= unit_denominator * 10 ^ 309) by (vm_compute; discriminate).
    lia.
  - unfold pow10_le, scale10.
    change (0 <=? - (308 - Z.of_nat 633 + 1)) with true. cbv iota beta.
    apply Z.leb_le. change (- (308 - Z.of_nat 633 + 1)) with 324.
    assert (unit_denominator <= 10 ^ 324) by (vm_compute; discriminate).
    nia.
Qed.

(** The 17-digit significand [D] and exponent [X] of a finite non-zero
    double denote, on the scale [10 ^ 400 * 2 ^ 1074], a number within
    one part in [2 * 10 ^ 16] of the double. *)
Lemma decimal_of_17_spec (b : double) :
  exp_field b < 2047 -> 0 < scaled b ->
  let D := fst (decimal_of 17 b) in
  let X := snd (decimal_of 17 b) in
  10 ^ 16 <= D < 10 ^ 17 /\ -324 <= X <= 309
  /\ 2 * 10 ^ 16 * Z.abs (D * unit_denominator * 10 ^ (384 + X)
                          - scaled b * 10 ^ 400)
     <= scaled b * 10 ^ 400.
Proof.
  intros Hfin Hpos. unfold decimal_of.
  destruct (decimal_exponent_double b Hfin Hpos) as (Hlo & Hhi & HX).
  set (X0 := decimal_exponent 633 308 (scaled b) unit_denominator) in *.
  set (N := scaled b) in *. set (U := unit_denominator) in *.
  assert (HU : 0 < U) by (vm_compute; reflexivity).
  destruct (scale10_spec (17 - 1 - X0) N U (384 + X0) HU ltac:(lia) ltac:(lia))
    as (c & Hc & En & Ed).
  pose proof (scale10_den_pos (17 - 1 - X0) N U HU) as Hd.
  destruct (scale10 (17 - 1 - X0) N U) as [n d]. cbn [fst snd] in *.
  replace (384 + X0 + (17 - 1 - X0)) with 400 in En by lia.
  set (T := U * 10 ^ (384 + X0)) in *.
  assert (HT : 0 < T).
  { pose proof (pow10_pos (384 + X0) ltac:(lia)). unfold T. nia. }
  pose proof (round_half_even_spec n d Hd) as Hr.
  set (D0 := round_half_even n d) in *.
  (* the rounding error, on the common scale *)
  assert (E1 : - T <= 2 * (D0 * T - N * 10 ^ 400) <= T).
  { rewrite <- En, <- Ed. nia. }
  (* the bracket of the decimal exponent, on the common scale *)
  assert (E2 : 10 ^ 16 * T <= N * 10 ^ 400).
  { apply (pow10_le_spec X0 N U (400 + X0) HU ltac:(lia) ltac:(lia)) in Hlo.
    replace (400 + X0 - X0) with 400 in Hlo by lia.
    unfold T. replace (400 + X0) with (16 + (384 + X0)) in Hlo by lia.
    rewrite (pow10_add 16) in Hlo by lia. lia. }
  assert (E3 : N * 10 ^ 400 < 10 ^ 17 * T).
  { assert (Hn : ~ U * 10 ^ (401 + X0) <= N * 10 ^ (401 + X0 - (X0 + 1))).
    { rewrite <- (pow10_le_spec (X0 + 1) N U (401 + X0) HU) by lia.
      rewrite Hhi. discriminate. }
    replace (401 + X0 - (X0 + 1)) with 400 in Hn by lia.
    unfold T. replace (401 + X0) with (17 + (384 + X0)) in Hn by lia.
    rewrite (pow10_add 17) in Hn by lia. lia. }
  assert (HD0 : 10 ^ 16 <= D0 <= 10 ^ 17)
    by (apply (rounded_in_bracket D0 T (N * 10 ^ 400)); lia).
  destruct (D0 =? 10 ^ 17) eqn:E; cbn [fst snd].
  - apply Z.eqb_eq in E.
    split; [lia|]. split; [lia|].
    replace (384 + (X0 + 1)) with (1 + (384 + X0)) by lia.
    rewrite (pow10_add 1) by lia.
    replace (10 ^ (17 - 1) * U * (10 ^ 1 * 10 ^ (384 + X0))) with (D0 * T)
      by (rewrite E; unfold T; change (10 ^ 17) with (10 ^ (17 - 1) * 10 ^ 1); ring).
    lia.
  - apply Z.eqb_neq in E.
    split; [lia|]. split; [lia|].
    replace (D0 * U * 10 ^ (384 + X0)) with (D0 * T) by (unfold T; ring).
    lia.
Qed.

End PrintfFacts.

(* ===================================================================== *)
(** ** Reading back: the nearest double                                  *)
(* ===================================================================== *)

Module NearestFacts.
Import Binary64 Printf Strtod Binary64Facts PrintfFacts.

Lemma pow2_double (n : nat) : 2 ^ Z.of_nat (S n) = 2 * 2 ^ Z.of_nat n.
Proof. rewrite Nat2Z.inj_succ, Z.pow_succ_r by lia. reflexivity. Qed.

(** The bisection finds the pattern whose value is just below. *)
Lemma floor_bits_spec (n : nat) (acc c num den : Z) :
  0 < den -> 0 <= acc -> acc <= c < acc + 2 ^ Z.of_nat n ->
  c + 1 < 2 ^ 63 -> acc + 2 ^ Z.of_nat n <= 2 ^ 63 ->
  scaled c * den <= num * unit_denominator ->
  num * unit_denominator < scaled (c + 1) * den ->
  floor_bits n acc num den = c.
Proof.
  intros Hden. revert acc.
  induction n as [|n IH]; intros acc Hacc Hc Hc1 Htop Hlo Hhi; cbn [floor_bits].
  - change (2 ^ Z.of_nat 0) with 1 in Hc. lia.
  - rewrite pow2_double in Hc, Htop.
    assert (Hp : 0 < 2 ^ Z.of_nat n) by (apply Z.pow_pos_nonneg; lia).
    unfold le_value.
    destruct (scaled (acc + 2 ^ Z.of_nat n) * den <=? num * unit_denominator) eqn:E.
    + apply Z.leb_le in E.
      assert (acc + 2 ^ Z.of_nat n <= c).
      { destruct (Z_le_gt_dec (acc + 2 ^ Z.of_nat n) c) as [|Hgt]; [assumption|].
        pose proof (scaled_mono (c + 1) (acc + 2 ^ Z.of_nat n)
                      ltac:(lia) ltac:(lia)).
        nia. }
      apply IH; lia.
    + apply Z.leb_gt in E.
      assert (c < acc + 2 ^ Z.of_nat n).
      { destruct (Z_lt_le_dec c (acc + 2 ^ Z.of_nat n)) as [|Hge]; [assumption|].
        pose proof (scaled_mono (acc + 2 ^ Z.of_nat n) c ltac:(lia) ltac:(lia)).
        nia. }
      apply IH; lia.
Qed.

(** A number within one part in [2 * 10 ^ 16] of a finite non-zero
    double has that double as its nearest. *)
Lemma nearest_magnitude_close (c num den : Z) :
  1 <= c < infinity_bits -> 0 < den ->
  2 * 10 ^ 16 * Z.abs (num * unit_denominator - scaled c * den)
    <= scaled c * den ->
  nearest_magnitude num den = c.
Proof.
  intros Hc Hden Hclose. unfold infinity_bits in Hc.
  set (U := unit_denominator) in *.
  set (a := scaled c * den) in *.
  destruct (Z_le_gt_dec a (num * U)) as [Hge | Hlt].
  - (* the number is at or above the double *)
    pose proof (scaled_succ c ltac:(lia) ltac:(lia)) as Es.
    pose proof (scaled_lt_ulp c) as Hu. pose proof (ulp_scaled_pos c) as Hup.
    set (u := ulp_scaled c * den).
    assert (Hau : a < 2 ^ 53 * u) by (unfold a, u; nia).
    assert (Hu0 : 0 < u) by (unfold u; nia).
    assert (Es' : scaled (c + 1) * den = a + u) by (rewrite Es; unfold a, u; ring).
    assert (Hx : 2 * (num * U - a) < u) by lia.
    assert (Hlo : floor_bits 63 0 num den = c).
    { apply floor_bits_spec; change (Z.of_nat 63) with 63; fold U;
        rewrite ?Es'; fold a; lia. }
    unfold nearest_magnitude. rewrite Hlo. fold U.
    assert (Hcmp : (2 * num * U ?= (scaled c + scaled (c + 1)) * den) = Lt).
    { apply Z.compare_lt_iff.
      replace ((scaled c + scaled (c + 1)) * den) with (a + (a + u))
        by (rewrite <- Es'; unfold a; ring).
      lia. }
    rewrite Hcmp. unfold infinity_bits. lia.
  - (* the number is below the double *)
    pose proof (scaled_succ (c - 1) ltac:(lia) ltac:(lia)) as Es.
    replace (c - 1 + 1) with c in Es by lia.
    pose proof (scaled_le_ulp_pred c ltac:(lia)) as Hu.
    pose proof (ulp_scaled_pos (c - 1)) as Hup.
    set (u := ulp_scaled (c - 1) * den).
    assert (Hau : a <= 2 ^ 53 * u) by (unfold a, u; nia).
    assert (Hu0 : 0 < u) by (unfold u; nia).
    assert (Es' : scaled (c - 1) * den = a - u) by (unfold a, u; rewrite Es; ring).
    assert (Hx : 2 * (a - num * U) < u) by lia.
    assert (Hlo : floor_bits 63 0 num den = c - 1).
    { apply floor_bits_spec; change (Z.of_nat 63) with 63; fold U;
        rewrite ?Z.sub_add, ?Es'; fold a; lia. }
    unfold nearest_magnitude. rewrite Hlo. fold U.
    replace (c - 1 + 1) with c by lia.
    assert (Hcmp : (2 * num * U ?= (scaled (c - 1) + scaled c) * den) = Gt).
    { apply Z.compare_gt_iff.
      replace ((scaled (c - 1) + scaled c) * den) with ((a - u) + a)
        by (rewrite <- Es'; unfold a; ring).
      lia. }
    rewrite Hcmp. unfold infinity_bits. lia.
Qed.

End NearestFacts.

(* ===================================================================== *)
(** ** Reading back: the digits                                          *)
(* ===================================================================== *)

Module ReadFacts.
Import Binary64 Printf Strtod Digits StringFacts PrintfFacts.

Ltac digit_cases d H :=
  let E := fresh "E" in
  assert (E : d = 0 \/ d = 1 \/ d = 2 \/ d = 3 \/ d = 4 \/ d = 5 \/ d = 6
              \/ d = 7 \/ d = 8 \/ d = 9) by lia;
  clear H;
  repeat (destruct E as [E | E]; [subst d; reflexivity|]);
  subst d; reflexivity.

Ltac triple_eq :=
  apply (f_equal2 pair); [apply (f_equal2 pair)|]; try reflexivity; try lia.

Lemma digit_value_digit_char (d : Z) :
  0 <= d < 10 -> digit_value (digit_char d) = Some d.
Proof. intros H. digit_cases d H. Qed.

Lemma digit_char_eqb_zero (d : Z) :
  0 <= d < 10 -> Ascii.eqb (digit_char d) "0" = (d =? 0).
Proof. intros H. digit_cases d H. Qed.

Lemma digits_S (n : nat) (D : Z) :
  digits (S n) D
  = String (digit_char ((D / 10 ^ Z.of_nat n) mod 10)) (digits n D).
Proof. reflexivity. Qed.

Lemma digits_empty (n : nat) (D : Z) : digits n D = "" -> n = O.
Proof. destruct n; [reflexivity | discriminate]. Qed.

Lemma pow10_S (n : nat) : 10 ^ Z.of_nat (S n) = 10 ^ Z.of_nat n * 10.
Proof. rewrite Nat2Z.inj_succ, Z.pow_succ_r by lia. ring. Qed.

Lemma pow10_nat_pos (n : nat) : 0 < 10 ^ Z.of_nat n.
Proof. apply pow10_pos. lia. Qed.

Lemma mod_pow10_S (n : nat) (D : Z) :
  D mod 10 ^ Z.of_nat (S n)
  = D mod 10 ^ Z.of_nat n + 10 ^ Z.of_nat n * ((D / 10 ^ Z.of_nat n) mod 10).
Proof.
  rewrite pow10_S. apply Z.rem_mul_r; [|lia].
  pose proof (pow10_nat_pos n). lia.
Qed.

Lemma read_digits_stop (acc cnt : Z) (rest : string) :
  no_digit_ahead rest = true -> read_digits acc cnt rest = (acc, cnt, rest).
Proof.
  destruct rest as [|c r]; cbn [no_digit_ahead read_digits]; [reflexivity|].
  destruct (digit_value c); [discriminate | reflexivity].
Qed.

(** Reading the digits of [D] puts [D] onto the accumulator. *)
Lemma read_digits_app (n : nat) (D acc cnt : Z) (rest : string) :
  read_digits acc cnt (digits n D ++ rest)
  = read_digits (acc * 10 ^ Z.of_nat n + D mod 10 ^ Z.of_nat n)
      (cnt + Z.of_nat n) rest.
Proof.
  revert acc cnt. induction n as [|n IH]; intros acc cnt.
  - cbn [digits append].
    change (10 ^ Z.of_nat 0) with 1. rewrite Z.mod_1_r.
    f_equal; lia.
  - rewrite digits_S.
    change (String ?c ?s ++ rest) with (String c (s ++ rest)).
    cbn [read_digits].
    rewrite digit_value_digit_char by (apply Z.mod_pos_bound; lia).
    rewrite IH, mod_pow10_S, pow10_S.
    f_equal; lia.
Qed.

Lemma read_digits_digits (n : nat) (D acc cnt : Z) (rest : string) :
  no_digit_ahead rest = true ->
  read_digits acc cnt (digits n D ++ rest)
  = (acc * 10 ^ Z.of_nat n + D mod 10 ^ Z.of_nat n, cnt + Z.of_nat n, rest).
Proof. intros H. now rewrite read_digits_app, read_digits_stop. Qed.

Lemma zeros_digits (n : nat) : zeros n = digits n 0.
Proof.
  induction n as [|n IH]; [reflexivity|].
  rewrite digits_S, <- IH. cbn [zeros].
  rewrite Z.div_0_l by (pose proof (pow10_nat_pos n); lia).
  reflexivity.
Qed.

(** Stripping the trailing zeros of the [n] low digits of [D] leaves
    the digits of [D / 10 ^ j] for a [10 ^ j] that divides [D]. *)
Lemma strip_digits (n : nat) (D : Z) :
  exists j : nat,
    (j <= n)%nat /\ D mod 10 ^ Z.of_nat j = 0
    /\ strip_trailing_zeros (digits n D)
       = digits (n - j) (D / 10 ^ Z.of_nat j).
Proof.
  induction n as [|n (j & Hj & Hmod & IH)].
  - exists O. repeat split; [lia | apply Z.mod_1_r].
  - rewrite digits_S. cbn [strip_trailing_zeros]. rewrite IH.
    set (d := (D / 10 ^ Z.of_nat n) mod 10).
    assert (Hd : 0 <= d < 10) by (apply Z.mod_pos_bound; lia).
    rewrite digit_char_eqb_zero by assumption.
    destruct (d =? 0) eqn:Ed;
      [destruct (String.eqb (digits (n - j) (D / 10 ^ Z.of_nat j)) "") eqn:Es|];
      cbn [andb].
    + apply Z.eqb_eq in Ed. apply String.eqb_eq, digits_empty in Es.
      assert (j = n) by lia. subst j.
      exists (S n). split; [lia|]. split.
      * rewrite mod_pow10_S. fold d. rewrite Hmod, Ed. lia.
      * replace (S n - S n)%nat with O by lia. reflexivity.
    + exists j. split; [lia|]. split; [assumption|].
      replace (S n - j)%nat with (S (n - j)) by lia.
      rewrite digits_S. f_equal. f_equal. unfold d. f_equal.
      rewrite Z.div_div by
        (try apply pow10_nat_pos; pose proof (pow10_nat_pos j); lia).
      rewrite <- Z.pow_add_r by lia. f_equal. f_equal. lia.
    + exists j. split; [lia|]. split; [assumption|].
      replace (S n - j)%nat with (S (n - j)) by lia.
      rewrite digits_S. f_equal. f_equal. unfold d. f_equal.
      rewrite Z.div_div by
        (try apply pow10_nat_pos; pose proof (pow10_nat_pos j); lia).
      rewrite <- Z.pow_add_r by lia. f_equal. f_equal. lia.
Qed.

(** With [10 ^ j] dividing [D], the low [n] digits of [D] are the low
    [n - j] digits of [D / 10 ^ j], shifted. *)
Lemma mod_pow10_split (n j D : Z) :
  0 <= j <= n -> D mod 10 ^ j = 0 ->
  D mod 10 ^ n = 10 ^ j * ((D / 10 ^ j) mod 10 ^ (n - j)).
Proof.
  intros Hj Hmod. replace n with (j + (n - j)) at 1 by lia.
  rewrite Z.pow_add_r by lia.
  pose proof (pow10_pos j ltac:(lia)). pose proof (pow10_pos (n - j) ltac:(lia)).
  rewrite Z.rem_mul_r by lia. lia.
Qed.

(** The digits before and behind the point, read as one integer, are
    [D] without its trailing zeros. *)
Lemma rejoin (D Dhi n j : Z) :
  0 <= j <= n -> D mod 10 ^ j = 0 -> Dhi = D / 10 ^ n ->
  Dhi * 10 ^ (n - j) + (D / 10 ^ j) mod 10 ^ (n - j) = D / 10 ^ j.
Proof.
  intros Hj Hmod ->.
  pose proof (pow10_pos j ltac:(lia)) as Hpj.
  pose proof (pow10_pos (n - j) ltac:(lia)) as Hpn.
  pose proof (Z.div_mod (D / 10 ^ j) (10 ^ (n - j)) ltac:(lia)) as E.
  replace (D / 10 ^ n) with (D / 10 ^ j / 10 ^ (n - j)); [lia|].
  rewrite Z.div_div by lia. rewrite <- Z.pow_add_r by lia.
  f_equal. f_equal. lia.
Qed.

End ReadFacts.

(* ===================================================================== *)
(** ** Reading back: a laid-out numeral                                   *)
(* ===================================================================== *)

Module LayoutFacts.
Import Binary64 Printf Strtod Digits StringFacts PrintfFacts ReadFacts.

Lemma eat_head (c : ascii) (s : string) : eat c (String c s) = Some s.
Proof. cbn [eat]. now rewrite Ascii.eqb_refl. Qed.

Lemma read_significand_positional (D X : Z) (rest : string) :
  0 <= D < 10 ^ 17 -> 0 <= X <= 16 ->
  no_digit_ahead rest = true -> eat "." rest = None ->
  exists j, 0 <= j <= 16 - X /\ D mod 10 ^ j = 0
    /\ read_significand (positional 17 D X ++ rest)
       = (D / 10 ^ j, 17 - j, 16 - X - j, rest).
Proof.
  intros HD HX Hrest Hdot. unfold positional.
  replace (17 - 1 - X) with (16 - X) by lia.
  destruct (strip_digits (Z.to_nat (16 - X)) D) as (j & Hj & Hmod & Es).
  rewrite Es. clear Es.
  set (Dhi := D / 10 ^ (16 - X)).
  assert (Hp : 0 < 10 ^ (16 - X)) by (apply pow10_pos; lia).
  assert (HDhi : 0 <= Dhi < 10 ^ (X + 1)).
  { unfold Dhi. split; [apply Z.div_pos; lia|].
    apply Z.div_lt_upper_bound; [lia|].
    rewrite <- Z.pow_add_r by lia. replace (16 - X + (X + 1)) with 17 by lia. lia. }
  assert (Hint : forall r, no_digit_ahead r = true ->
            read_digits 0 0 (digits (Z.to_nat (X + 1)) Dhi ++ r) = (Dhi, X + 1, r)).
  { intros r Hr. rewrite read_digits_digits by assumption.
    rewrite Z2Nat.id by lia. rewrite Z.mod_small by assumption. triple_eq. }
  exists (Z.of_nat j).
  destruct (String.eqb _ "") eqn:E.
  - apply String.eqb_eq, digits_empty in E.
    assert (Ej : Z.of_nat j = 16 - X) by lia.
    split; [lia|]. split; [assumption|].
    unfold read_significand. rewrite Hint by assumption. rewrite Hdot.
    rewrite Ej. fold Dhi. apply (f_equal2 pair); [|reflexivity].
    apply (f_equal2 pair); [apply (f_equal2 pair)|]; try reflexivity; lia.
  - clear E. split; [lia|]. split; [assumption|].
    rewrite !append_assoc.
    unfold read_significand. rewrite Hint by reflexivity.
    change ("." ++ ?s) with (String "." s). rewrite eat_head.
    rewrite read_digits_digits by assumption.
    rewrite Nat2Z.inj_sub by lia. rewrite Z2Nat.id by lia.
    rewrite (rejoin D Dhi (16 - X) (Z.of_nat j)) by (try reflexivity; lia || assumption).
    apply (f_equal2 pair); [|reflexivity].
    apply (f_equal2 pair); [apply (f_equal2 pair)|]; try reflexivity; lia.
Qed.

Lemma read_exponent_suffix (X : Z) :
  -1000 < X < 1000 -> read_exponent (exponent_suffix X) = Some X.
Proof.
  intros HX. unfold exponent_suffix.
  set (n := if Z.abs X <? 100 then 2%nat else if Z.abs X <? 1000 then 3%nat else 4%nat).
  assert (Hn : Z.abs X < 10 ^ Z.of_nat n /\ (0 < n)%nat).
  { unfold n. destruct (Z.abs X <? 100) eqn:E1; [apply Z.ltb_lt in E1|];
      [|destruct (Z.abs X <? 1000) eqn:E2; [apply Z.ltb_lt in E2|apply Z.ltb_ge in E2]];
      split; try lia; cbn; lia. }
  destruct Hn as [Hn Hn0].
  assert (Hread : read_digits 0 0 (digits n (Z.abs X)) = (Z.abs X, Z.of_nat n, "")).
  { rewrite <- (append_nil_r (digits n (Z.abs X))) at 1.
    rewrite read_digits_digits by reflexivity.
    rewrite Z.mod_small by lia. triple_eq. }
  unfold read_exponent.
  destruct (X <? 0) eqn:E.
  - apply Z.ltb_lt in E.
    change ("e" ++ "-" ++ ?s) with (String "e" (String "-" s)).
    cbn [String.eqb eat Ascii.eqb Bool.eqb andb]. rewrite Hread.
    replace (Z.of_nat n =? 0) with false by (symmetry; apply Z.eqb_neq; lia).
    cbn. f_equal. lia.
  - apply Z.ltb_ge in E.
    change ("e" ++ "+" ++ ?s) with (String "e" (String "+" s)).
    cbn [String.eqb eat Ascii.eqb Bool.eqb andb]. rewrite Hread.
    replace (Z.of_nat n =? 0) with false by (symmetry; apply Z.eqb_neq; lia).
    cbn. f_equal. lia.
Qed.

(** Reading a laid-out significand and exponent gives the significand
    without its trailing zeros and the exponent of its last digit. *)
Lemma parse_decimal_layout (D X : Z) :
  10 ^ 16 <= D < 10 ^ 17 -> -324 <= X <= 309 ->
  exists j, 0 <= j <= 17 /\ D mod 10 ^ j = 0
    /\ parse_decimal (layout 17 D X) = Some (D / 10 ^ j, X - 16 + j).
Proof.
  intros HD HX. unfold layout.
  destruct ((X <? -4) || (17 <=? X)) eqn:Esci.
  - (* scientific *)
    destruct (read_significand_positional D 0 (exponent_suffix X))
      as (j & Hj & Hmod & Er); try lia; try reflexivity.
    exists j. split; [lia|]. split; [assumption|].
    unfold parse_decimal. rewrite Er.
    replace (17 - j =? 0) with false by (symmetry; apply Z.eqb_neq; lia).
    rewrite read_exponent_suffix by lia. f_equal. f_equal. lia.
  - apply orb_false_iff in Esci as [E1 E2].
    apply Z.ltb_ge in E1. apply Z.leb_gt in E2.
    destruct (0 <=? X) eqn:E3.
    + (* positional *)
      apply Z.leb_le in E3.
      destruct (read_significand_positional D X "")
        as (j & Hj & Hmod & Er); try lia; try reflexivity.
      rewrite append_nil_r in Er.
      exists j. split; [lia|]. split; [assumption|].
      unfold parse_decimal. rewrite Er.
      replace (17 - j =? 0) with false by (symmetry; apply Z.eqb_neq; lia).
      cbn [read_exponent String.eqb]. f_equal. f_equal. lia.
    + (* leading zeros *)
      apply Z.leb_gt in E3.
      destruct (strip_digits (Z.to_nat 17) D) as (j & Hj & Hmod & Es).
      rewrite Es. clear Es.
      exists (Z.of_nat j). split; [lia|]. split; [assumption|].
      unfold parse_decimal, read_significand.
      change ("0." ++ ?s) with (String "0" (String "." s)).
      change (read_digits 0 0 (String "0" (String "." ?s)))
        with (0, 1, String "." s).
      cbv beta iota. rewrite eat_head.
      rewrite zeros_digits, read_digits_app.
      rewrite <- (append_nil_r (digits (Z.to_nat 17 - j) (D / 10 ^ Z.of_nat j))).
      rewrite read_digits_digits by reflexivity.
      rewrite Z.mod_0_l by (pose proof (pow10_nat_pos (Z.to_nat (- X - 1))); lia).
      rewrite Nat2Z.inj_sub by lia. change (Z.of_nat (Z.to_nat 17)) with 17.
      assert (Hq : 0 <= D / 10 ^ Z.of_nat j < 10 ^ (17 - Z.of_nat j)).
      { pose proof (pow10_pos (Z.of_nat j) ltac:(lia)).
        split; [apply Z.div_pos; lia|].
        apply Z.div_lt_upper_bound; [lia|].
        rewrite <- Z.pow_add_r by lia.
        replace (Z.of_nat j + (17 - Z.of_nat j)) with 17 by lia. lia. }
      rewrite Z.mod_small by assumption.
      rewrite Z2Nat.id by lia.
      replace (1 + (0 + (- X - 1) + (17 - Z.of_nat j)) =? 0) with false
        by (symmetry; apply Z.eqb_neq; lia).
      cbn [read_exponent String.eqb]. f_equal.
      apply (f_equal2 pair); lia.
Qed.

End LayoutFacts.

(* ===================================================================== *)
(** ** Seventeen digits are enough                                       *)
(* ===================================================================== *)

Module RoundTrip.
Import Binary64 Printf Strtod Digits Pressure StringFacts.
Import Binary64Facts PrintfFacts NearestFacts ReadFacts LayoutFacts PressureFacts.

(** *** Sign and magnitude *)

Lemma magnitude_bits_range (b : double) : 0 <= magnitude_bits b < 2 ^ 63.
Proof. rewrite magnitude_bits_mod. apply Z.mod_pos_bound. lia. Qed.

Lemma exp_field_magnitude (b : double) :
  exp_field (magnitude_bits b) = exp_field b.
Proof.
  rewrite !exp_field_div, magnitude_bits_mod.
  rewrite (Z.div_mod b (2 ^ 63)) at 2 by lia.
  change (2 ^ 63) with (2 ^ 11 * 2 ^ 52) at 2.
  replace (2 ^ 11 * 2 ^ 52 * (b / 2 ^ 63) + b mod 2 ^ 63)
    with (b mod 2 ^ 63 + (b / 2 ^ 63 * 2 ^ 11) * 2 ^ 52) by ring.
  rewrite Z.div_add by lia. rewrite Z.mod_add by lia. reflexivity.
Qed.

Lemma frac_field_magnitude (b : double) :
  frac_field (magnitude_bits b) = frac_field b.
Proof.
  rewrite !frac_field_mod, magnitude_bits_mod.
  rewrite (Z.div_mod b (2 ^ 63)) at 2 by lia.
  change (2 ^ 63) with (2 ^ 11 * 2 ^ 52) at 2.
  replace (2 ^ 11 * 2 ^ 52 * (b / 2 ^ 63) + b mod 2 ^ 63)
    with (b mod 2 ^ 63 + (b / 2 ^ 63 * 2 ^ 11) * 2 ^ 52) by ring.
  rewrite Z.mod_add by lia. reflexivity.
Qed.

Lemma scaled_magnitude (b : double) : scaled (magnitude_bits b) = scaled b.
Proof.
  unfold scaled, mantissa, exponent.
  now rewrite exp_field_magnitude, frac_field_magnitude.
Qed.

Lemma sign_bit_magnitude (c : Z) : 0 <= c < 2 ^ 63 -> sign_bit c = false.
Proof.
  intros H. unfold sign_bit. apply Z.testbit_false; [lia|].
  rewrite Z.div_small by lia. reflexivity.
Qed.

Lemma sign_and_magnitude (b : double) :
  wf b -> b = (if sign_bit b then 2 ^ 63 else 0) + magnitude_bits b.
Proof.
  unfold wf. intros H. rewrite magnitude_bits_mod. unfold sign_bit.
  pose proof (Z.div_mod b (2 ^ 63) ltac:(lia)) as E.
  assert (Hq : 0 <= b / 2 ^ 63 < 2).
  { split; [apply Z.div_pos; lia | apply Z.div_lt_upper_bound; lia]. }
  destruct (Z.testbit b 63) eqn:T.
  - apply Z.testbit_true in T; [|lia].
    rewrite Z.mod_small in T by lia. lia.
  - apply Z.testbit_false in T; [|lia].
    rewrite Z.mod_small in T by lia. lia.
Qed.

Lemma format_g_sign (p : Z) (b : double) :
  format_g p b
  = (if sign_bit b then "-" else "") ++ format_g p (magnitude_bits b).
Proof.
  unfold format_g, decimal_of.
  rewrite (sign_bit_magnitude (magnitude_bits b)) by apply magnitude_bits_range.
  rewrite exp_field_magnitude, frac_field_magnitude, scaled_magnitude.
  destruct (exp_field b =? 2047); [reflexivity|].
  destruct (scaled b =? 0); [reflexivity|].
  match goal with |- context [let '(D, X) := ?d in _] => destruct d as [D X] end.
  reflexivity.
Qed.

(** *** A numeral does not start with a minus sign *)

Lemma eat_minus_digit (c : ascii) (r : string) :
  is_digit c = true -> eat "-" (String c r) = None.
Proof.
  intros H. cbn [eat]. destruct (Ascii.eqb_spec c "-") as [-> | _];
    [discriminate | reflexivity].
Qed.

Lemma positional_head (P D X : Z) :
  0 <= X -> eat "-" (positional P D X) = None.
Proof.
  intros HX. unfold positional.
  destruct (Z.to_nat (X + 1)) as [|n] eqn:E; [lia|].
  rewrite digits_S.
  assert (Hd : is_digit (digit_char ((D / 10 ^ (P - 1 - X) / 10 ^ Z.of_nat n) mod 10)) = true)
    by (apply PrintfChars.digit_char_is_digit, Z.mod_pos_bound; lia).
  destruct (String.eqb _ ""); now apply eat_minus_digit.
Qed.

Lemma layout_head (P D X : Z) : eat "-" (layout P D X) = None.
Proof.
  unfold layout. destruct ((X <? -4) || (P <=? X)).
  - pose proof (positional_head P D 0 ltac:(lia)) as H.
    destruct (positional P D 0) as [|a r]; [reflexivity|].
    cbn [eat append] in *. destruct (Ascii.eqb a "-"); [discriminate | reflexivity].
  - destruct (0 <=? X) eqn:E; [|reflexivity].
    apply positional_head. now apply Z.leb_le.
Qed.

(** *** The nearest double to the printed digits *)

Lemma cancel_scale (A B c : Z) :
  0 < c -> 2 * 10 ^ 16 * Z.abs (A * c) <= B * c -> 2 * 10 ^ 16 * Z.abs A <= B.
Proof.
  intros Hc H. rewrite Z.abs_mul, (Z.abs_eq c) in H by lia.
  apply (Z.mul_le_mono_pos_r _ _ c Hc). lia.
Qed.

Lemma to_common_scale (num den k M pj pX p400 U N D : Z) :
  D = M * pj -> num * k = M * (pj * pX) -> den * k = 1 * p400 ->
  (num * U - N * den) * k = D * U * pX - N * p400
  /\ N * den * k = N * p400.
Proof.
  intros -> En Ed. split.
  - replace ((num * U - N * den) * k) with (num * k * U - N * (den * k)) by ring.
    rewrite En, Ed. ring.
  - replace (N * den * k) with (N * (den * k)) by ring. rewrite Ed. ring.
Qed.

Lemma finite_below_infinity (c : Z) :
  0 <= c < 2 ^ 63 -> exp_field c < 2047 -> c < infinity_bits.
Proof.
  intros Hc He. rewrite (fields_of_magnitude c Hc).
  pose proof (frac_field_range c). unfold infinity_bits. lia.
Qed.

Lemma parse_magnitude_layout (c : Z) :
  0 <= c < 2 ^ 63 -> exp_field c < 2047 -> 0 < scaled c ->
  parse_magnitude (layout 17 (fst (decimal_of 17 c)) (snd (decimal_of 17 c)))
  = Some c.
Proof.
  intros Hc Hfin Hpos.
  destruct (decimal_of_17_spec c Hfin Hpos) as (HD & HX & Hclose).
  set (D := fst (decimal_of 17 c)) in *. set (X := snd (decimal_of 17 c)) in *.
  destruct (parse_decimal_layout D X HD HX) as (j & Hj & Hmod & Ep).
  unfold parse_magnitude. rewrite Ep.
  set (M := D / 10 ^ j) in *.
  assert (HDM : D = M * 10 ^ j).
  { pose proof (Z.div_mod D (10 ^ j) ltac:(pose proof (pow10_pos j); lia)).
    unfold M. lia. }
  destruct (scale10_spec (X - 16 + j) M 1 400 ltac:(lia) ltac:(lia) ltac:(lia))
    as (k & Hk & En & Ed).
  pose proof (scale10_den_pos (X - 16 + j) M 1 ltac:(lia)) as Hden.
  destruct (scale10 (X - 16 + j) M 1) as [num den]. cbn [fst snd] in *.
  f_equal. apply nearest_magnitude_close; [|assumption|].
  - split; [|now apply finite_below_infinity].
    destruct (Z.eq_dec c 0) as [-> | ]; [discriminate Hpos | lia].
  - replace (400 + (X - 16 + j)) with (j + (384 + X)) in En by lia.
    rewrite Z.pow_add_r in En by lia.
    destruct (to_common_scale num den k M (10 ^ j) (10 ^ (384 + X)) (10 ^ 400)
                unit_denominator (scaled c) D HDM En Ed) as [E1 E2].
    apply (cancel_scale _ _ k Hk). rewrite E1, E2. exact Hclose.
Qed.

Lemma parse_zero : parse_magnitude "0" = Some 0.
Proof. vm_compute. reflexivity. Qed.

Lemma parse_inf : parse_magnitude "inf" = Some infinity_bits.
Proof. vm_compute. reflexivity. Qed.

(** Every sign-free pattern that is not a NaN is read back from its
    17 digits. *)
Lemma parse_format_magnitude (c : Z) :
  0 <= c < 2 ^ 63 -> is_nan c = false ->
  eat "-" (format_g 17 c) = None /\ parse_magnitude (format_g 17 c) = Some c.
Proof.
  intros Hc Hnan. unfold format_g. change (Z.max 1 17) with 17.
  rewrite (sign_bit_magnitude c Hc). cbn [append].
  unfold is_nan in Hnan.
  pose proof (exp_field_range c) as He.
  destruct (exp_field c =? 2047) eqn:E.
  - apply Z.eqb_eq in E. cbn [andb] in Hnan. apply negb_false_iff in Hnan.
    rewrite Hnan. split; [reflexivity|]. rewrite parse_inf. f_equal.
    apply Z.eqb_eq in Hnan. rewrite (fields_of_magnitude c Hc), E, Hnan.
    reflexivity.
  - apply Z.eqb_neq in E.
    destruct (scaled c =? 0) eqn:Z0.
    + apply Z.eqb_eq in Z0. apply (scaled_zero_iff c Hc) in Z0. subst c.
      split; [reflexivity | exact parse_zero].
    + apply Z.eqb_neq in Z0. pose proof (scaled_nonneg c).
      pose proof (parse_magnitude_layout c Hc ltac:(lia) ltac:(lia)) as Hp.
      destruct (decimal_of 17 c) as [D X]. cbn [fst snd] in Hp.
      split; [apply layout_head | exact Hp].
Qed.

(** Every double that is not a NaN is read back, bit for bit, from the
    text the stream writes for it at precision 17. *)
Lemma parse_format_double (b : double) :
  wf b -> is_nan b = false -> parse_double (format_g 17 b) = Some b.
Proof.
  intros Hwf Hnan.
  assert (Hnan' : is_nan (magnitude_bits b) = false).
  { unfold is_nan in *. now rewrite exp_field_magnitude, frac_field_magnitude. }
  destruct (parse_format_magnitude _ (magnitude_bits_range b) Hnan') as [Hhead Hp].
  rewrite format_g_sign. unfold parse_double.
  rewrite (sign_and_magnitude b Hwf) at 3.
  destruct (sign_bit b).
  - change ("-" ++ ?s) with (String "-" s). rewrite eat_head, Hp. reflexivity.
  - cbn [append]. rewrite Hhead, Hp. reflexivity.
Qed.

Lemma parse_row_to_csv_string (s : PressureSensorStateType) (t : double) :
  Forall (fun x => wf x /\ is_nan x = false) (t :: coeffs (p_ip_ s)) ->
  parse_row (to_csv_string s t)
  = Some (t, {| base := base PressureSensorStateType_new; p_ip_ := p_ip_ s |}).
Proof.
  intros H. unfold coeffs in H.
  inversion H as [|? ? [Wt Nt] H1]; subst.
  inversion H1 as [|? ? [Wx Nx] H2]; subst.
  inversion H2 as [|? ? [Wy Ny] H3]; subst.
  inversion H3 as [|? ? [Wz Nz] _]; subst.
  unfold parse_row. rewrite to_csv_string_eq.
  rewrite split_row by apply format_g_no_comma.
  cbn [map coeff]. rewrite !parse_format_double by assumption.
  destruct s as [bs [x y z]]. reflexivity.
Qed.

(** C8, as amended: the row of a state whose timestamp and three
    [p_ip_] coefficients are doubles other than NaN is read back to
    that timestamp and that state, bit for bit. *)
Theorem row_round_trip (s : PressureSensorStateType) (t : double) :
  Forall (fun x => wf x /\ is_nan x = false) (t :: coeffs (p_ip_ s)) ->
  cov_size_ (base s) = 3 ->
  parse_row (to_csv_string s t) = Some (t, s).
Proof.
  intros H Hcov. rewrite parse_row_to_csv_string by exact H.
  destruct s as [[n] p]. cbn in Hcov. subst n. reflexivity.
Qed.

(** The state [(0.1, -20946.817372738657, 5)] at time [1.5]. *)
Lemma row_round_trip_witness :
  let s := {| base := BaseStates_new 3;
              p_ip_ := {| x_ := 0x3FB999999999999A;
                          y_ := 0xC0D474B44FD5BF4B;
                          z_ := five |} |} in
  let t := 0x3FF8000000000000 in
  Forall (fun x => wf x /\ is_nan x = false) (t :: coeffs (p_ip_ s))
  /\ cov_size_ (base s) = 3
  /\ parse_row (to_csv_string s t) = Some (t, s).
Proof.
  cbv zeta.
  assert (H : Forall (fun x => wf x /\ is_nan x = false)
                [0x3FF8000000000000; 0x3FB999999999999A;
                 0xC0D474B44FD5BF4B; five]).
  { repeat (apply Forall_cons; [split; [unfold wf, five; lia | reflexivity]|]).
    apply Forall_nil. }
  split; [exact H|]. split; [reflexivity|].
  apply row_round_trip; [exact H | reflexivity].
Defined.

(** C8, as stated, fails on a NaN: every NaN is written as [nan], the
    fraction bits are not in the row, and the state read back differs
    from the one written. *)
Lemma nan_payload_not_recovered :
  let s := {| base := BaseStates_new 3;
              p_ip_ := {| x_ := 0x7FF8000000000001; y_ := zero; z_ := zero |} |} in
  let s' := {| base := BaseStates_new 3;
               p_ip_ := {| x_ := quiet_nan; y_ := zero; z_ := zero |} |} in
  to_csv_string s zero = "0, nan, 0, 0"
  /\ to_csv_string s' zero = to_csv_string s zero
  /\ parse_row (to_csv_string s zero) = Some (zero, s')
  /\ parse_row (to_csv_string s zero) <> Some (zero, s).
Proof.
  cbv zeta.
  assert (E : to_csv_string
                {| base := BaseStates_new 3;
                   p_ip_ := {| x_ := 0x7FF8000000000001; y_ := zero; z_ := zero |} |}
                zero = "0, nan, 0, 0") by (vm_compute; reflexivity).
  rewrite E. split; [reflexivity|].
  split; [vm_compute; reflexivity|].
  split; [vm_compute; reflexivity|].
  vm_compute. discriminate.
Qed.

End RoundTrip.

(* ===================================================================== *)
(** ** At most seventeen significant digits                              *)
(* ===================================================================== *)

Module SignificantDigits.
Import Binary64 Printf Digits Pressure StringFacts PrintfChars PressureFacts.

Local Open Scope nat_scope.

Lemma count_digits_app (a b : string) :
  count_digits (a ++ b) = count_digits a + count_digits b.
Proof.
  induction a as [|c a IH]; cbn [append count_digits]; [reflexivity|].
  rewrite IH. lia.
Qed.

Lemma count_digits_le_length (s : string) : count_digits s <= String.length s.
Proof.
  induction s as [|c s IH]; cbn [count_digits String.length]; [lia|].
  destruct (is_digit c); lia.
Qed.

Lemma length_digits (n : nat) (D : Z) : String.length (digits n D) = n.
Proof. induction n as [|n IH]; cbn [digits String.length]; congruence. Qed.

Lemma length_strip (s : string) :
  String.length (strip_trailing_zeros s) <= String.length s.
Proof.
  induction s as [|c s IH]; cbn [strip_trailing_zeros String.length]; [lia|].
  destruct (_ && _); cbn [String.length]; lia.
Qed.

Lemma count_skip_leading (s : string) :
  count_digits (skip_leading s) <= count_digits s.
Proof.
  induction s as [|c s IH]; cbn [skip_leading]; [lia|].
  destruct (is_nonzero_digit c); [lia|].
  cbn [count_digits]. lia.
Qed.

Lemma skip_leading_zeros (n : nat) (s : string) :
  skip_leading (zeros n ++ s) = skip_leading s.
Proof. induction n as [|n IH]; [reflexivity | exact IH]. Qed.

Lemma significand_part_whole (s : string) :
  all_chars not_e s = true -> significand_part s = s.
Proof.
  induction s as [|c s IH]; cbn [all_chars significand_part]; [reflexivity|].
  intros H. apply andb_true_iff in H as [Hc Hs].
  unfold not_e in Hc. apply negb_true_iff in Hc. rewrite Hc, IH by assumption.
  reflexivity.
Qed.

Lemma significand_part_before_e (a r : string) :
  all_chars not_e a = true -> significand_part (a ++ String "e" r) = a.
Proof.
  induction a as [|c a IH]; cbn [all_chars append significand_part]; [reflexivity|].
  intros H. apply andb_true_iff in H as [Hc Hs].
  unfold not_e in Hc. apply negb_true_iff in Hc. rewrite Hc, IH by assumption.
  reflexivity.
Qed.

Lemma digit_not_e (c : ascii) : is_digit c = true -> not_e c = true.
Proof.
  unfold not_e. destruct (Ascii.eqb_spec c "e") as [-> | _];
    [discriminate | reflexivity].
Qed.

Lemma digits_not_e (s : string) :
  all_chars is_digit s = true -> all_chars not_e s = true.
Proof. apply all_chars_weaken, digit_not_e. Qed.

Lemma positional_not_e (P D X : Z) :
  all_chars not_e (positional P D X) = true.
Proof.
  unfold positional.
  destruct (String.eqb _ ""); [apply digits_not_e, digits_all_digits|].
  rewrite !all_chars_app. cbn [all_chars].
  rewrite !digits_not_e by (try apply strip_all_chars; apply digits_all_digits).
  reflexivity.
Qed.

Lemma count_positional (P D X : Z) :
  count_digits (positional P D X)
  <= Z.to_nat (X + 1) + Z.to_nat (P - 1 - X).
Proof.
  unfold positional.
  pose proof (count_digits_le_length (digits (Z.to_nat (X + 1)) (D / 10 ^ (P - 1 - X)))) as Hi.
  rewrite length_digits in Hi.
  pose proof (count_digits_le_length
                (strip_trailing_zeros (digits (Z.to_nat (P - 1 - X)) D))) as Hf.
  pose proof (length_strip (digits (Z.to_nat (P - 1 - X)) D)) as Hs.
  rewrite length_digits in Hs.
  destruct (String.eqb _ ""); [lia|].
  rewrite !count_digits_app.
  change (count_digits ".") with 0. lia.
Qed.

Lemma significant_digits_layout (D X : Z) :
  significant_digits (layout 17 D X) <= 17.
Proof.
  unfold significant_digits, layout.
  destruct ((X <? -4)%Z || (17 <=? X)%Z) eqn:E.
  - unfold exponent_suffix.
    change ("e" ++ ?s) with (String "e" s).
    rewrite significand_part_before_e by apply positional_not_e.
    pose proof (count_skip_leading (positional 17 D 0)).
    pose proof (count_positional 17 D 0). cbn in *. lia.
  - apply orb_false_iff in E as [E1 E2].
    apply Z.ltb_ge in E1. apply Z.leb_gt in E2.
    destruct (0 <=? X)%Z eqn:E3.
    + apply Z.leb_le in E3.
      rewrite significand_part_whole by apply positional_not_e.
      pose proof (count_skip_leading (positional 17 D X)).
      pose proof (count_positional 17 D X). lia.
    + rewrite significand_part_whole.
      * change ("0." ++ ?s) with (String "0" (String "." s)).
        cbn [skip_leading is_nonzero_digit]. 
        change (is_nonzero_digit "0") with false.
        change (is_nonzero_digit ".") with false. cbv iota.
        rewrite skip_leading_zeros.
        pose proof (count_skip_leading (strip_trailing_zeros (digits (Z.to_nat 17) D))).
        pose proof (count_digits_le_length (strip_trailing_zeros (digits (Z.to_nat 17) D))).
        pose proof (length_strip (digits (Z.to_nat 17) D)) as Hs.
        rewrite length_digits in Hs. change (Z.to_nat 17) with 17 in *. lia.
      * rewrite !all_chars_app.
        rewrite (digits_not_e (zeros _)) by apply zeros_all_digits.
        rewrite (digits_not_e (strip_trailing_zeros _))
          by apply strip_all_chars, digits_all_digits.
        reflexivity.
Qed.

Lemma significant_digits_sign (sgn : bool) (s : string) :
  significant_digits ((if sgn then "-" else "") ++ s) = significant_digits s.
Proof. destruct sgn; reflexivity. Qed.

(** A double written at precision 17 shows at most 17 significant
    digits. *)
Lemma significant_digits_format_g (b : double) :
  significant_digits (format_g 17 b) <= 17.
Proof.
  unfold format_g. change (Z.max 1 17) with 17%Z.
  destruct (exp_field b =? 2047)%Z.
  - rewrite significant_digits_sign.
    destruct (frac_field b =? 0)%Z; cbn; lia.
  - destruct (scaled b =? 0)%Z.
    + rewrite significant_digits_sign. cbn. lia.
    + destruct (decimal_of 17 b) as [D X].
      rewrite significant_digits_sign. apply significant_digits_layout.
Qed.

(** The stream is at precision 17 when the body of [to_csv_string] is
    through, and no field of a row shows more than 17 significant
    digits. *)
Lemma row_fields_at_most_17_digits (s : PressureSensorStateType) (t : double) :
  StringStream.precision_
    (os (run (to_csv_string_body t) {| this := s; os := StringStream.fresh |}))
  = 17%Z
  /\ Forall (fun f => significant_digits f <= 17)
       (split_fields (to_csv_string s t)).
Proof.
  split; [reflexivity|].
  rewrite to_csv_string_eq, split_row by apply format_g_no_comma.
  repeat (apply Forall_cons; [apply significant_digits_format_g|]).
  apply Forall_nil.
Qed.


(** The digits are all there when they are needed: [0.1] is written
    with seventeen. *)
Example tenth_needs_17_digits :
  format_g 17 0x3FB999999999999A%Z = "0.10000000000000001"
  /\ significant_digits (format_g 17 0x3FB999999999999A%Z) = 17.
Proof. split; vm_compute; reflexivity. Qed.

End SignificantDigits.

(* ===================================================================== *)
(** ** The model on the numbers of the test                              *)
(* ===================================================================== *)

(** The expected final state of the end-to-end test is written in its
    source with seventeen digits; these are the digits the stream
    writes for those doubles, and they read back to them. *)
Module TestNumbers.
Import Binary64 Printf Strtod.

(** [true_p_wi(0)] is [-20946.817372738657]. *)
Example true_p_wi_x :
  format_g 17 0xC0D474B44FD5BF4B = "-20946.817372738657"
  /\ parse_double "-20946.817372738657" = Some 0xC0D474B44FD5BF4B.
Proof. split; vm_compute; reflexivity. Qed.

(** [p_wi_init(2)] is [5]. *)
Example p_wi_init_z :
  format_g 17 five = "5" /\ parse_double "5" = Some five.
Proof. split; vm_compute; reflexivity. Qed.

(** The smallest and the largest finite doubles. *)
Example extreme_doubles :
  format_g 17 1 = "4.9406564584124654e-324"
  /\ format_g 17 0x7FEFFFFFFFFFFFFF = "1.7976931348623157e+308"
  /\ parse_double "4.9406564584124654e-324" = Some 1
  /\ parse_double "1.7976931348623157e+308" = Some 0x7FEFFFFFFFFFFFFF.
Proof. repeat split; vm_compute; reflexivity. Qed.

(** Signed zero and the infinities. *)
Example zeros_and_infinities :
  format_g 17 0x8000000000000000 = "-0"
  /\ format_g 17 infinity_bits = "inf"
  /\ format_g 17 0xFFF0000000000000 = "-inf"
  /\ parse_double "-0" = Some 0x8000000000000000
  /\ parse_double "-inf" = Some 0xFFF0000000000000.
Proof. repeat split; vm_compute; reflexivity. Qed.

(** At the stream's initial precision of 6 the same double shows six
    digits. *)
Example default_precision :
  format_g 6 0xC0D474B44FD5BF4B = "-20946.8"
  /\ format_g 6 0x412E848000000000 = "1e+06".
Proof. split; vm_compute; reflexivity. Qed.

End TestNumbers.

(* ===================================================================== *)
(** ** More on the rows of the pressure-sensor state                     *)
(* ===================================================================== *)

Module RowFacts.
Import Binary64 Printf StringStream Pressure Digits RowText.
Import StringFacts PrintfChars PressureFacts Binary64Facts PrintfFacts.
Import ReadFacts RoundTrip SignificantDigits.

(** *** What a row is made of *)

Lemma numeral_row_char (c : ascii) : numeral_char c = true -> row_char c = true.
Proof. intros H. unfold row_char. now rewrite H. Qed.

Lemma format_g_row_chars (p : Z) (b : double) :
  all_chars row_char (format_g p b) = true.
Proof.
  apply all_chars_weaken with (p := numeral_char);
    [exact numeral_row_char | apply format_g_numeral].
Qed.

Lemma row_char_one_line (c : ascii) :
  row_char c = true -> negb (Ascii.eqb c "010") && negb (Ascii.eqb c "013") = true.
Proof.
  destruct (Ascii.eqb_spec c "010") as [-> | _]; [discriminate|].
  destruct (Ascii.eqb_spec c "013") as [-> | _]; [discriminate | reflexivity].
Qed.

(** X2: a row holds nothing but digits, the signs, the point, the
    exponent mark, the letters of [inf] and [nan], commas and spaces; it
    has no line break in it. *)
Theorem row_alphabet (s : PressureSensorStateType) (t : double) :
  all_chars row_char (to_csv_string s t) = true
  /\ all_chars (fun c => negb (Ascii.eqb c "010") && negb (Ascii.eqb c "013"))
       (to_csv_string s t) = true.
Proof.
  assert (H : all_chars row_char (to_csv_string s t) = true).
  { rewrite to_csv_string_eq, !all_chars_app, !format_g_row_chars. reflexivity. }
  split; [exact H|].
  revert H. apply all_chars_weaken, row_char_one_line.
Qed.

(** *** How long a row can be *)

Local Open Scope nat_scope.

Lemma length_app (a b : string) :
  String.length (a ++ b) = String.length a + String.length b.
Proof.
  induction a as [|c a IH]; cbn [append String.length]; [reflexivity|].
  now rewrite IH.
Qed.

Lemma length_zeros (n : nat) : String.length (zeros n) = n.
Proof. induction n as [|n IH]; cbn [zeros String.length]; congruence. Qed.

Lemma length_positional (P D X : Z) :
  String.length (positional P D X)
  <= Z.to_nat (X + 1) + 1 + Z.to_nat (P - 1 - X).
Proof.
  unfold positional.
  pose proof (length_strip (digits (Z.to_nat (P - 1 - X)) D)) as Hs.
  rewrite length_digits in Hs.
  destruct (String.eqb _ "").
  - rewrite length_digits. lia.
  - rewrite !length_app, length_digits. cbn [String.length]. lia.
Qed.

Lemma length_exponent_suffix (X : Z) :
  (Z.abs X < 1000)%Z -> String.length (exponent_suffix X) <= 5.
Proof.
  intros H. unfold exponent_suffix. rewrite !length_app, length_digits.
  destruct (X <? 0)%Z; cbn [String.length];
    destruct (Z.abs X <? 100)%Z; try lia;
    (destruct (Z.abs X <? 1000)%Z eqn:E; [lia | apply Z.ltb_ge in E; lia]).
Qed.

Lemma length_layout (D X : Z) :
  (-1000 < X < 1000)%Z -> String.length (layout 17 D X) <= 23.
Proof.
  intros HX. unfold layout.
  destruct ((X <? -4)%Z || (17 <=? X)%Z) eqn:E.
  - rewrite length_app.
    pose proof (length_positional 17 D 0).
    pose proof (length_exponent_suffix X ltac:(lia)).
    change (Z.to_nat (0 + 1)) with 1 in *. change (Z.to_nat (17 - 1 - 0)) with 16 in *.
    lia.
  - apply orb_false_iff in E as [E1 E2].
    apply Z.ltb_ge in E1. apply Z.leb_gt in E2.
    destruct (0 <=? X)%Z eqn:E3.
    + apply Z.leb_le in E3. pose proof (length_positional 17 D X). lia.
    + apply Z.leb_gt in E3.
      rewrite !length_app, length_zeros.
      pose proof (length_strip (digits (Z.to_nat 17) D)) as Hs.
      rewrite length_digits in Hs. cbn [String.length]. lia.
Qed.

Lemma length_format_g (b : double) : String.length (format_g 17 b) <= 24.
Proof.
  unfold format_g. change (Z.max 1 17) with 17%Z.
  assert (Hs : String.length (if sign_bit b then "-" else "") <= 1)
    by (destruct (sign_bit b); cbn; lia).
  pose proof (exp_field_range b) as He.
  destruct (exp_field b =? 2047)%Z eqn:E.
  - rewrite length_app. destruct (frac_field b =? 0)%Z; cbn [String.length]; lia.
  - apply Z.eqb_neq in E.
    destruct (scaled b =? 0)%Z eqn:Z0.
    + rewrite length_app. cbn [String.length]. lia.
    + apply Z.eqb_neq in Z0. pose proof (scaled_nonneg b).
      destruct (decimal_of_17_spec b ltac:(lia) ltac:(lia)) as (_ & HX & _).
      destruct (decimal_of 17 b) as [D X]. cbn [fst snd] in HX.
      rewrite length_app. pose proof (length_layout D X ltac:(lia)). lia.
Qed.

(** X3: at precision 17 a field takes at most 24 characters, which the
    most negative finite double needs, and a row at most 102. *)
Theorem row_length_bound (s : PressureSensorStateType) (t : double) :
  Forall (fun f => String.length f <= 24) (split_fields (to_csv_string s t))
  /\ String.length (to_csv_string s t) <= 102
  /\ String.length (format_g 17 0xFFEFFFFFFFFFFFFF%Z) = 24.
Proof.
  split; [|split].
  - rewrite to_csv_string_eq, split_row by apply format_g_no_comma.
    repeat (apply Forall_cons; [apply length_format_g|]). apply Forall_nil.
  - rewrite to_csv_string_eq, !length_app.
    pose proof (length_format_g t).
    pose proof (length_format_g (coeff (p_ip_ s) 0)).
    pose proof (length_format_g (coeff (p_ip_ s) 1)).
    pose proof (length_format_g (coeff (p_ip_ s) 2)).
    cbn [String.length]. lia.
  - vm_compute. reflexivity.
Qed.

Local Close Scope nat_scope.

(** *** How a field starts *)

Lemma positional_starts_with_digit (P D X : Z) :
  0 <= X -> exists c r, positional P D X = String c r /\ is_digit c = true.
Proof.
  intros HX. unfold positional.
  destruct (Z.to_nat (X + 1)) as [|n] eqn:E; [lia|].
  rewrite digits_S.
  assert (Hd : is_digit (digit_char ((D / 10 ^ (P - 1 - X) / 10 ^ Z.of_nat n) mod 10)) = true)
    by (apply digit_char_is_digit, Z.mod_pos_bound; lia).
  destruct (String.eqb _ ""); eexists; eexists; split; try reflexivity; exact Hd.
Qed.

Lemma layout_starts_with_digit (P D X : Z) :
  exists c r, layout P D X = String c r /\ is_digit c = true.
Proof.
  unfold layout. destruct ((X <? -4) || (P <=? X)).
  - destruct (positional_starts_with_digit P D 0 ltac:(lia)) as (c & r & E & Hc).
    rewrite E. exists c. eexists. split; [reflexivity | exact Hc].
  - destruct (0 <=? X) eqn:E.
    + apply positional_starts_with_digit. now apply Z.leb_le.
    + exists "0"%char. eexists. split; reflexivity.
Qed.

(** An unsigned numeral starts with a digit or with the [i] of [inf] or
    the [n] of [nan]. *)
Lemma format_g_unsigned_head (p : Z) (b : double) :
  sign_bit b = false ->
  exists c r, format_g p b = String c r
              /\ Ascii.eqb c "-" = false /\ numeral_char c = true.
Proof.
  intros Hs. unfold format_g. rewrite Hs. cbn [append].
  destruct (exp_field b =? 2047).
  - destruct (frac_field b =? 0); eexists; eexists; repeat split.
  - destruct (scaled b =? 0); [eexists; eexists; repeat split|].
    destruct (decimal_of (Z.max 1 p) b) as [D X].
    destruct (layout_starts_with_digit (Z.max 1 p) D X) as (c & r & E & Hc).
    rewrite E. exists c, r. split; [reflexivity|]. split.
    + destruct (Ascii.eqb_spec c "-") as [-> | _]; [discriminate Hc | reflexivity].
    + now apply digit_numeral.
Qed.

Lemma format_g_head (p : Z) (b : double) :
  format_g p b <> "" /\ starts_with_minus (format_g p b) = sign_bit b.
Proof.
  rewrite format_g_sign.
  destruct (format_g_unsigned_head p (magnitude_bits b)) as (c & r & E & Hc & _).
  { apply sign_bit_magnitude, magnitude_bits_range. }
  rewrite E. destruct (sign_bit b); cbn [append starts_with_minus].
  - split; [discriminate | reflexivity].
  - split; [discriminate | exact Hc].
Qed.

(** X4: no field of a row is empty, and a field starts with a minus sign
    exactly when the sign bit of the value it stands for is set, be the
    value a number, a zero, an infinity or a NaN. *)
Theorem row_fields_signed (s : PressureSensorStateType) (t : double) :
  Forall2 (fun v f => f <> "" /\ starts_with_minus f = sign_bit v)
    (t :: coeffs (p_ip_ s)) (split_fields (to_csv_string s t)).
Proof.
  rewrite to_csv_string_eq, split_row by apply format_g_no_comma.
  unfold coeffs. destruct s as [bs [x y z]]. cbn [p_ip_ coeff x_ y_ z_].
  repeat (apply Forall2_cons; [apply format_g_head|]). apply Forall2_nil.
Qed.

(** X5: no row is the header: a reader can tell the header line from
    the lines that follow it. *)
Theorem row_is_not_header (s : PressureSensorStateType) (t : double) :
  to_csv_string s t <> get_csv_state_header_string.
Proof.
  rewrite to_csv_string_eq, format_g_sign.
  destruct (format_g_unsigned_head 17 (magnitude_bits t)) as (c & r & E & Hc & Hn).
  { apply sign_bit_magnitude, magnitude_bits_range. }
  rewrite E. destruct (sign_bit t); cbn [append]; [discriminate|].
  intros H. change get_csv_state_header_string with "t, p_ip_x, p_ip_y, p_ip_z" in H.
  apply (f_equal (fun x => match x with
                           | String a _ => Ascii.eqb a "t"
                           | "" => false
                           end)) in H.
  cbv beta iota in H. rewrite Ascii.eqb_refl in H.
  apply Ascii.eqb_eq in H. subst c. discriminate Hn.
Qed.

(** *** Rows tell states apart *)

(** X1: two rows are equal only if their timestamps and their [p_ip_]
    coefficients are the same doubles, bit for bit, NaNs left aside. *)
Theorem to_csv_string_injective
    (s1 s2 : PressureSensorStateType) (t1 t2 : double) :
  Forall (fun x => wf x /\ is_nan x = false) (t1 :: coeffs (p_ip_ s1)) ->
  Forall (fun x => wf x /\ is_nan x = false) (t2 :: coeffs (p_ip_ s2)) ->
  to_csv_string s1 t1 = to_csv_string s2 t2 ->
  t1 = t2 /\ p_ip_ s1 = p_ip_ s2.
Proof.
  intros H1 H2 E.
  pose proof (parse_row_to_csv_string s1 t1 H1) as P1.
  pose proof (parse_row_to_csv_string s2 t2 H2) as P2.
  rewrite E, P2 in P1. injection P1 as -> ->. split; reflexivity.
Qed.

(** The state [(0.1, -20946.817372738657, 5)] at time [1.5], against
    itself. *)
Lemma to_csv_string_injective_witness :
  let s := {| base := BaseStates_new 3;
              p_ip_ := {| x_ := 0x3FB999999999999A;
                          y_ := 0xC0D474B44FD5BF4B;
                          z_ := five |} |} in
  let t := 0x3FF8000000000000 in
  Forall (fun x => wf x /\ is_nan x = false) (t :: coeffs (p_ip_ s))
  /\ to_csv_string s t = to_csv_string s t
  /\ t = t /\ p_ip_ s = p_ip_ s.
Proof.
  cbv zeta.
  assert (H : Forall (fun x => wf x /\ is_nan x = false)
                [0x3FF8000000000000; 0x3FB999999999999A;
                 0xC0D474B44FD5BF4B; five]).
  { repeat (apply Forall_cons; [split; [unfold wf, five; lia | reflexivity]|]).
    apply Forall_nil. }
  split; [exact H|]. split; [reflexivity|].
  apply (to_csv_string_injective
           {| base := BaseStates_new 3;
              p_ip_ := {| x_ := 0x3FB999999999999A; y_ := 0xC0D474B44FD5BF4B;
                          z_ := five |} |}
           {| base := BaseStates_new 3;
              p_ip_ := {| x_ := 0x3FB999999999999A; y_ := 0xC0D474B44FD5BF4B;
                          z_ := five |} |}
           0x3FF8000000000000 0x3FF8000000000000);
    [exact H | exact H | reflexivity].
Defined.

End RowFacts.

(* ===================================================================== *)
(** ** Whole numbers in a row                                            *)
(* ===================================================================== *)

Module WholeNumbers.
Import Binary64 Printf StringStream Pressure Digits RowText.
Import StringFacts PrintfChars PressureFacts Binary64Facts PrintfFacts.
Import ReadFacts RoundTrip.

Lemma pow10_le_antitone (X Y N U : Z) :
  0 < U -> 0 <= N -> -400 <= X <= Y -> Y <= 400 ->
  pow10_le Y N U = true -> pow10_le X N U = true.
Proof.
  intros HU HN HX HY H.
  apply (pow10_le_spec Y N U 400 HU ltac:(lia) ltac:(lia)) in H.
  apply (pow10_le_spec X N U 400 HU ltac:(lia) ltac:(lia)).
  replace (400 - X) with ((400 - Y) + (Y - X)) by lia.
  rewrite pow10_add by lia.
  pose proof (pow10_pos (400 - Y) ltac:(lia)).
  pose proof (pow10_pos (Y - X) ltac:(lia)).
  nia.
Qed.

(** Digits that are all zeros are stripped to nothing. *)
Lemma strip_zero_digits (n : nat) (D : Z) :
  D mod 10 ^ Z.of_nat n = 0 -> strip_trailing_zeros (digits n D) = "".
Proof.
  induction n as [|n IH]; intros H; [reflexivity|].
  rewrite mod_pow10_S in H.
  pose proof (Z.mod_pos_bound D (10 ^ Z.of_nat n) (pow10_nat_pos n)) as H1.
  pose proof (Z.mod_pos_bound (D / 10 ^ Z.of_nat n) 10 ltac:(lia)) as H2.
  pose proof (pow10_nat_pos n) as Hp.
  assert (E1 : D mod 10 ^ Z.of_nat n = 0) by nia.
  assert (E2 : (D / 10 ^ Z.of_nat n) mod 10 = 0) by nia.
  rewrite digits_S. cbn [strip_trailing_zeros].
  rewrite IH by exact E1. rewrite E2. reflexivity.
Qed.

(** The decimal exponent of a whole number below [10 ^ 17]. *)
Lemma decimal_exponent_whole (b : double) (n : Z) :
  exp_field b < 2047 -> 1 <= n < 10 ^ 17 -> scaled b = n * unit_denominator ->
  let X0 := decimal_exponent 633 308 (scaled b) unit_denominator in
  0 <= X0 <= 16 /\ 10 ^ X0 <= n < 10 ^ (X0 + 1).
Proof.
  intros Hfin Hn Hs.
  assert (HU : 0 < unit_denominator) by (vm_compute; reflexivity).
  assert (Hpos : 0 < scaled b) by (rewrite Hs; nia).
  destruct (decimal_exponent_double b Hfin Hpos) as (Hlo & Hhi & HX).
  cbv zeta. set (X0 := decimal_exponent 633 308 (scaled b) unit_denominator) in *.
  rewrite Hs in Hlo, Hhi. clear Hs Hpos.
  set (U := unit_denominator) in *.
  assert (HN : 0 <= n * U) by nia.
  assert (H0 : pow10_le 0 (n * U) U = true).
  { apply (pow10_le_spec 0 (n * U) U 0 HU); [lia | lia |].
    change (10 ^ 0) with 1. change (10 ^ (0 - 0)) with 1. nia. }
  assert (H17 : pow10_le 17 (n * U) U = false).
  { apply not_true_iff_false. intros H.
    apply (pow10_le_spec 17 (n * U) U 17 HU) in H; [|lia|lia].
    change (10 ^ (17 - 17)) with 1 in H. nia. }
  assert (HX0 : 0 <= X0 <= 16).
  { split.
    - destruct (Z_le_gt_dec 0 X0) as [|Hneg]; [assumption|].
      rewrite (pow10_le_antitone (X0 + 1) 0 (n * U) U) in Hhi by (lia || assumption).
      discriminate Hhi.
    - destruct (Z_le_gt_dec X0 16) as [|Hbig]; [assumption|].
      rewrite (pow10_le_antitone 17 X0 (n * U) U) in H17 by (lia || assumption).
      discriminate H17. }
  split; [exact HX0|]. split.
  - apply (pow10_le_spec X0 (n * U) U X0 HU) in Hlo; [|lia|lia].
    replace (X0 - X0) with 0 in Hlo by lia. change (10 ^ 0) with 1 in Hlo.
    pose proof (pow10_pos X0 ltac:(lia)). nia.
  - destruct (Z_lt_le_dec n (10 ^ (X0 + 1))) as [|Hge]; [assumption|].
    assert (H : pow10_le (X0 + 1) (n * U) U = true).
    { apply (pow10_le_spec (X0 + 1) (n * U) U (X0 + 1) HU); [lia | lia |].
      replace (X0 + 1 - (X0 + 1)) with 0 by lia. change (10 ^ 0) with 1. nia. }
    rewrite H in Hhi. discriminate Hhi.
Qed.

Lemma round_half_even_exact (q d : Z) : 0 < d -> round_half_even (q * d) d = q.
Proof.
  intros Hd. unfold round_half_even.
  rewrite Z.div_mul, Z.mod_mul by lia.
  destruct (Z.compare_spec (2 * 0) d); lia.
Qed.

(** A double that is a whole number below [10 ^ 17] is written as that
    number: its digits and nothing else. *)
Lemma format_g_whole (b : double) (n : Z) :
  exp_field b < 2047 -> 1 <= n < 10 ^ 17 -> scaled b = n * unit_denominator ->
  exists X, 0 <= X <= 16 /\ 10 ^ X <= n < 10 ^ (X + 1)
    /\ format_g 17 b
       = (if sign_bit b then "-" else "") ++ digits (Z.to_nat (X + 1)) n.
Proof.
  intros Hfin Hn Hs.
  destruct (decimal_exponent_whole b n Hfin Hn Hs) as (HX & Hb).
  assert (HU : 0 < unit_denominator) by (vm_compute; reflexivity).
  set (X0 := decimal_exponent 633 308 (scaled b) unit_denominator) in *.
  exists X0. split; [exact HX|]. split; [exact Hb|].
  unfold format_g, decimal_of. change (Z.max 1 17) with 17.
  replace (exp_field b =? 2047) with false by (symmetry; apply Z.eqb_neq; lia).
  replace (scaled b =? 0) with false by (symmetry; apply Z.eqb_neq; nia).
  fold X0. unfold scale10.
  replace (0 <=? 17 - 1 - X0) with true by (symmetry; apply Z.leb_le; lia).
  rewrite Hs.
  replace (n * unit_denominator * 10 ^ (17 - 1 - X0))
    with (n * 10 ^ (17 - 1 - X0) * unit_denominator) by ring.
  rewrite round_half_even_exact by exact HU.
  pose proof (pow10_pos (17 - 1 - X0) ltac:(lia)) as Hp.
  assert (Hlt : n * 10 ^ (17 - 1 - X0) < 10 ^ 17).
  { replace 17 with ((X0 + 1) + (17 - 1 - X0)) at 2 by lia.
    rewrite pow10_add by lia. nia. }
  replace (n * 10 ^ (17 - 1 - X0) =? 10 ^ 17) with false
    by (symmetry; apply Z.eqb_neq; lia).
  f_equal. unfold layout.
  replace (X0 <? -4) with false by (symmetry; apply Z.ltb_ge; lia).
  replace (17 <=? X0) with false by (symmetry; apply Z.leb_gt; lia).
  replace (0 <=? X0) with true by (symmetry; apply Z.leb_le; lia).
  cbn [orb]. unfold positional.
  rewrite strip_zero_digits.
  - cbn [String.eqb]. rewrite Z.div_mul by lia. reflexivity.
  - rewrite Z2Nat.id by lia. apply Z.mod_mul. lia.
Qed.

(** X6: a timestamp or coefficient that is a whole number below
    [10 ^ 17] is written as that number, with its digits, a minus sign
    if it is negative, and neither point nor exponent. *)
Theorem whole_numbers_written_plainly
    (s : PressureSensorStateType) (t v : double) (f : string) (n : Z) :
  In (v, f) (combine (t :: coeffs (p_ip_ s)) (split_fields (to_csv_string s t))) ->
  exp_field v < 2047 -> 1 <= n < 10 ^ 17 -> scaled v = n * unit_denominator ->
  exists X, 0 <= X <= 16 /\ 10 ^ X <= n < 10 ^ (X + 1)
    /\ f = (if sign_bit v then "-" else "") ++ digits (Z.to_nat (X + 1)) n.
Proof.
  rewrite to_csv_string_eq, split_row by apply format_g_no_comma.
  destruct s as [bs [x y z]]. cbn [combine coeffs p_ip_ coeff x_ y_ z_ In].
  intros [E | [E | [E | [E | []]]]] Hfin Hn Hs;
    injection E as <- <-; now apply format_g_whole.
Qed.

Lemma whole_numbers_written_plainly_witness :
  let s := {| base := BaseStates_new 3;
              p_ip_ := {| x_ := zero; y_ := zero; z_ := five |} |} in
  In (five, "5") (combine (one :: coeffs (p_ip_ s)) (split_fields (to_csv_string s one)))
  /\ exp_field five < 2047 /\ 1 <= 5 < 10 ^ 17
  /\ scaled five = 5 * unit_denominator
  /\ exists X, 0 <= X <= 16 /\ 10 ^ X <= 5 < 10 ^ (X + 1)
       /\ "5" = (if sign_bit five then "-" else "") ++ digits (Z.to_nat (X + 1)) 5.
Proof.
  cbv zeta.
  assert (HIn : In (five, "5")
                  (combine (one :: coeffs (p_ip_ {| base := BaseStates_new 3;
                              p_ip_ := {| x_ := zero; y_ := zero; z_ := five |} |}))
                     (split_fields
                        (to_csv_string {| base := BaseStates_new 3;
                              p_ip_ := {| x_ := zero; y_ := zero; z_ := five |} |} one)))).
  { vm_compute. right. right. right. left. reflexivity. }
  assert (Hfin : exp_field five < 2047) by (vm_compute; reflexivity).
  assert (Hn : 1 <= 5 < 10 ^ 17) by lia.
  assert (Hs : scaled five = 5 * unit_denominator) by (vm_compute; reflexivity).
  split; [exact HIn|]. split; [exact Hfin|]. split; [exact Hn|]. split; [exact Hs|].
  exact (whole_numbers_written_plainly _ _ _ _ _ HIn Hfin Hn Hs).
Defined.

End WholeNumbers.

(* ===================================================================== *)
(** ** The 17 significant digits of a field                              *)
(* ===================================================================== *)

(** [os.precision(17)] comes first in [to_csv_string], so each of the
    four doubles is written with 17 significant digits computed for it.
    What the text shows of them is pinned down here: the digits are
    those of the value rounded to the nearest 17-digit decimal, and the
    only ones missing are zeros at the end. *)

Module SeventeenDigits.
Import Binary64 Printf Digits Pressure ShownDigits.
Import StringFacts PrintfChars PressureFacts Binary64Facts PrintfFacts ReadFacts.
Import SignificantDigits.

(** *** Digit strings *)












(** *** The digits of the layouts *)






(** *** No zero is left at the end of a fraction *)









(** *** The rounding *)


(** *** A double written at precision 17 *)



(** The significand and the exponent behind the fields of one row: the
    time [0.1] with the state [(1.5, 100, 1e22)]. *)
Example seventeen_digits_of_a_row :
  let s := {| base := BaseStates_new 3;
              p_ip_ := {| x_ := 0x3FF8000000000000;
                          y_ := 0x4059000000000000;
                          z_ := 0x4480F0CF064DD592 |} |} in
  let t := 0x3FB999999999999A in
  split_fields (to_csv_string s t)
  = ["0.10000000000000001"; "1.5"; "100"; "1e+22"]
  /\ map shown_digits (split_fields (to_csv_string s t))
     = ["10000000000000001"; "15"; "100"; "1"]
  /\ map (decimal_of 17) (t :: coeffs (p_ip_ s))
     = [(10000000000000001, -1); (15000000000000000, 0);
        (10000000000000000, 2); (10000000000000000, 22)].
Proof. vm_compute. repeat split. Qed.

(** The digits of a number below [10 ^ n] tell the number. *)
Lemma digits_value (n : nat) (D : Z) (text : string) :
  0 <= D < 10 ^ Z.of_nat n -> digits n D = text ->
  D = fst (fst (Strtod.read_digits 0 0 text)).
Proof.
  intros HD <-. rewrite <- (append_nil_r (digits n D)).
  rewrite read_digits_digits by reflexivity. cbn [fst].
  rewrite Z.mod_small by exact HD. lia.
Qed.

(** The call of [precision] matters.  At the precision a stream starts
    with, [0.1] is written as [0.1], and that field does not show the 17
    digits of the double, which is a little above a tenth. *)
Lemma default_precision_shows_fewer :
  StringStream.str (StringStream.put_double 0x3FB999999999999A StringStream.fresh)
  = "0.1"
  /\ ~ shows_17_digits 0x3FB999999999999A "0.1".
Proof.
  split; [vm_compute; reflexivity|].
  unfold shows_17_digits.
  assert (E : (exp_field 0x3FB999999999999A =? 2047)
              || (scaled 0x3FB999999999999A =? 0) = false)
    by (vm_compute; reflexivity).
  rewrite E. clear E.
  intros (D & X & HD & HX & Hr & Hs).
  change (shown_digits "0.1") with "1" in Hs.
  cbn [String.length Nat.sub zeros append] in Hs.
  symmetry in Hs. apply (digits_value 17 D) in Hs;
    [|change (10 ^ Z.of_nat 17) with (10 ^ 17); destruct HD as [Hlo' Hhi'];
      split; [|exact Hhi'];
      apply (Z.le_trans _ (10 ^ 16)); [discriminate | exact Hlo']].
  change (fst (fst (Strtod.read_digits 0 0 "10000000000000000")))
    with (10 ^ 16) in Hs.
  subst D. unfold decimal_on_scale, double_on_scale in Hr.
  assert (F1 : (2 * 10 ^ 16 + 1) * (unit_denominator * 10 ^ 382)
               < 2 * (scaled 0x3FB999999999999A * 10 ^ 400))
    by (vm_compute; reflexivity).
  assert (F2 : 2 * (scaled 0x3FB999999999999A * 10 ^ 400)
               < (2 * 10 ^ 16 - 1) * (unit_denominator * 10 ^ 384))
    by (vm_compute; reflexivity).
  assert (F3 : unit_denominator * 10 ^ 383
               < 2 * (scaled 0x3FB999999999999A * 10 ^ 400
                      - 10 ^ 16 * (unit_denominator * 10 ^ 383)))
    by (vm_compute; reflexivity).
  assert (HU : 0 < unit_denominator) by (vm_compute; reflexivity).
  set (k := 400 + (X - 16)) in *.
  replace (10 ^ 16 * unit_denominator * 10 ^ k)
    with (10 ^ 16 * (unit_denominator * 10 ^ k)) in Hr by ring.
  replace (1 * unit_denominator * 10 ^ k)
    with (unit_denominator * 10 ^ k) in Hr by ring.
  assert (Hcases : k <= 382 \/ k = 383 \/ 384 <= k) by lia.
  destruct Hcases as [Hk | [Hk | Hk]].
  - assert (Hp : unit_denominator * 10 ^ k <= unit_denominator * 10 ^ 382).
    { apply Z.mul_le_mono_nonneg_l; [lia|].
      apply Z.pow_le_mono_r; lia. }
    set (C := scaled 0x3FB999999999999A * 10 ^ 400) in *.
    set (q := unit_denominator * 10 ^ k) in *.
    set (q382 := unit_denominator * 10 ^ 382) in *.
    set (e16 := 10 ^ 16) in *.
    assert (0 < e16) by reflexivity.
    clearbody C q q382 e16. nia.
  - rewrite Hk in Hr.
    set (C := scaled 0x3FB999999999999A * 10 ^ 400) in *.
    set (q := unit_denominator * 10 ^ 383) in *.
    set (e16 := 10 ^ 16) in *.
    clearbody C q e16. lia.
  - assert (Hp : unit_denominator * 10 ^ 384 <= unit_denominator * 10 ^ k).
    { apply Z.mul_le_mono_nonneg_l; [lia|].
      apply Z.pow_le_mono_r; lia. }
    set (C := scaled 0x3FB999999999999A * 10 ^ 400) in *.
    set (q := unit_denominator * 10 ^ k) in *.
    set (q384 := unit_denominator * 10 ^ 384) in *.
    set (e16 := 10 ^ 16) in *.
    assert (1 < e16) by reflexivity.
    clearbody C q q384 e16. nia.
Qed.

End SeventeenDigits.
